(** * aiospotify.http: the Route value and the HTTPClient request engine

    A shallow embedding of [src/aiospotify/http.py].  Python values are an
    inductive type, dicts are stdpp finite maps, and the asynchronous
    methods of [HTTPClient] are functions in a state-and-exception monad
    over the client object, the credential objects it references and a
    trace of the calls made to external collaborators (transport,
    [asyncio.sleep], credential refresh). *)

From Stdlib Require Import ZArith Ascii String List Lia Bool.
From stdpp Require Import base option gmap strings list fin_maps pretty.

Set Warnings "-register-all".

Local Open Scope string_scope.
Local Open Scope Z_scope.

(** ** Python values *)

(** The dynamically typed values that flow through the module: query
    parameters, JSON request bodies and decoded response bodies.  A text
    value is its UTF-8 byte string, so a [str] that UTF-8 cannot encode
    (one with a lone surrogate) is not among them.  Numbers are integers;
    the module never
    inspects a float other than the [Retry-After] header, which has its own
    type below. *)
Inductive value : Type :=
| VNone
| VBool (b : bool)
| VInt (n : Z)
| VStr (s : string)
| VList (l : list value)
| VDict (d : gmap string value).

(** Python truthiness ([if x:], [x or y], [x and y]). *)
Definition truthy (v : value) : bool :=
  match v with
  | VNone => false
  | VBool b => b
  | VInt n => negb (n =? 0)
  | VStr s => negb (String.eqb s "")
  | VList l => match l with [] => false | _ => true end
  | VDict d => negb (Nat.eqb (size d) 0)
  end.

(** Truthiness of an optional sequence argument. *)
Definition truthy_list {A} (o : option (list A)) : bool :=
  match o with Some (_ :: _) => true | _ => false end.

(** ** Exceptions *)

Record Response := {
  status : Z;
  headers : list (string * string)
}.

(** The exceptions that can leave the module.  The classes of
    [aiospotify.exceptions] selected through [values.EXCEPTION_MAPPING] are
    identified by their class name; like [RequestEntityTooLarge] and
    [HTTPError] they are taken not to derive from [OSError].  The message of an error raised by
    library code ([str.format_map], [float]) is the interpreter's, without
    the offending text. *)
Inductive exn : Type :=
| ValueError (msg : string)
| KeyError (key : value)
| TypeError
| AttributeError
| AssertionError
| UnboundLocalError (name : string)
| RuntimeError (msg : string)
| OSError (errno : option Z)
| FormatNotModelled
| CredentialsError (what : string)
| RequestEntityTooLarge (response : Response) (data : value)
| HTTPError (response : Response) (error : value)
| MappedError (cls : string) (response : Response) (error : value).

Abbreviation result A := (exn + A)%type.

(** ** [urllib.parse.quote] *)

Module urllib.

Definition in_range (lo hi : ascii) (c : ascii) : bool :=
  ((N_of_ascii lo <=? N_of_ascii c) && (N_of_ascii c <=? N_of_ascii hi))%N.

Fixpoint mem_ascii (c : ascii) (s : string) : bool :=
  match s with
  | EmptyString => false
  | String c' s' => Ascii.eqb c c' || mem_ascii c s'
  end.

(** [_ALWAYS_SAFE]: the unreserved characters of RFC 3986. *)
Definition always_safe (c : ascii) : bool :=
  in_range "A" "Z" c || in_range "a" "z" c || in_range "0" "9" c
  || mem_ascii c "_.-~".

Definition hex_digit (n : N) : ascii :=
  match String.get (N.to_nat n) "0123456789ABCDEF" with
  | Some c => c
  | None => "0"%char
  end.

Definition quote_byte (safe : string) (c : ascii) : string :=
  if always_safe c || mem_ascii c safe then String c EmptyString
  else String "%" (String (hex_digit (N_of_ascii c / 16))
                  (String (hex_digit (N_of_ascii c mod 16)) EmptyString)).

Fixpoint quote_from_bytes (safe : string) (s : string) : string :=
  match s with
  | EmptyString => EmptyString
  | String c s' => quote_byte safe c ++ quote_from_bytes safe s'
  end.

(** [quote(string)] with its default [safe='/']. *)
Definition quote (s : string) : string := quote_from_bytes "/" s.

End urllib.

(** ** [str.join] and [str.format_map] *)

Module pystr.

(** [sep.join(items)] *)
Fixpoint join (sep : string) (items : list string) : string :=
  match items with
  | [] => ""
  | [x] => x
  | x :: rest => x ++ sep ++ join sep rest
  end.

(** [query.replace(" ", "+")] *)
Fixpoint replace_space_plus (s : string) : string :=
  match s with
  | EmptyString => EmptyString
  | String c s' =>
      String (if Ascii.eqb c " " then "+"%char else c) (replace_space_plus s')
  end.

(** The part of the format mini-language that is modelled: literal text,
    the escapes [{{] and [}}], and replacement fields [{name}] whose name
    is looked up in the mapping as it stands.  A field that uses attribute
    or index access ([.], [[]), a conversion ([!]), a format
    specification ([:]) or a non-ASCII byte gives [FormatNotModelled]. *)
Definition plain_field_char (c : ascii) : bool :=
  (N_of_ascii c <? 128)%N && negb (urllib.mem_ascii c ".[!:").

Fixpoint all_digits (s : string) : bool :=
  match s with
  | EmptyString => true
  | String c s' => urllib.in_range "0" "9" c && all_digits s'
  end.

(** An empty or numeric field name is positional, which [format_map]
    refuses; any other name is a key of the mapping. *)
Definition is_positional (name : string) : bool := all_digits name.

Section FormatMap.

(** [format(v, "")] for a value that is not a [str]. *)
Variable py_str : value -> string.

Definition format_value (v : value) : string :=
  match v with
  | VStr s => s
  | _ => py_str v
  end.

Definition get_field (mapping : gmap string value) (name : string)
  : result string :=
  if is_positional name then
    if (String.length name <=? 18)%nat
    then inl (ValueError "Format string contains positional fields")
    else inl FormatNotModelled
  else
    match mapping !! name with
    | Some v => inr (format_value v)
    | None => inl (KeyError (VStr name))
    end.

Inductive scan_state :=
| Text
| Field (name : string).

(** One left-to-right pass, as the interpreter's markup iterator does:
    literal text is copied, each field is rendered as soon as its
    closing brace is read, and the first error ends the pass. *)
Fixpoint format_scan (mapping : gmap string value) (s : string)
  (st : scan_state) (out : string) : result string :=
  match s with
  | EmptyString =>
      match st with
      | Text => inr out
      | Field _ => inl (ValueError "expected '}' before end of string")
      end
  | String c rest =>
      match st with
      | Text =>
          if Ascii.eqb c "{" then
            match rest with
            | EmptyString =>
                inl (ValueError "Single '{' encountered in format string")
            | String c' rest' =>
                if Ascii.eqb c' "{"
                then format_scan mapping rest' Text (out ++ "{")
                else format_scan mapping rest (Field "") out
            end
          else if Ascii.eqb c "}" then
            match rest with
            | EmptyString =>
                inl (ValueError "Single '}' encountered in format string")
            | String c' rest' =>
                if Ascii.eqb c' "}"
                then format_scan mapping rest' Text (out ++ "}")
                else inl (ValueError "Single '}' encountered in format string")
            end
          else format_scan mapping rest Text (out ++ String c "")
      | Field name =>
          if Ascii.eqb c "}" then
            match get_field mapping name with
            | inl e => inl e
            | inr text => format_scan mapping rest Text (out ++ text)
            end
          else if Ascii.eqb c "{" then
            inl (ValueError "unexpected '{' in field name")
          else if plain_field_char c then
            format_scan mapping rest (Field (name ++ String c "")) out
          else inl FormatNotModelled
      end
  end.

Definition format_map (s : string) (mapping : gmap string value)
  : result string :=
  format_scan mapping s Text "".

End FormatMap.

End pystr.

(** ** Route *)

Inductive HTTPMethod := GET | POST | DELETE | PATCH | PUT.

Record Route := {
  method : HTTPMethod;
  path : string;
  url : string
}.

Definition BASE_URL : string := "https://api.spotify.com/v1".

Section Route.

Variable py_str : value -> string.

(** The value expression of the dict comprehension:
    [urllib.parse.quote(value) if isinstance(value, str) else value]. *)
Definition quote_if_str (v : value) : value :=
  match v with
  | VStr s => VStr (urllib.quote s)
  | _ => v
  end.

(** [Route.__init__(self, method, path, /, **parameters)] *)
Definition Route_init (method : HTTPMethod) (path : string)
  (parameters : gmap string value) : result Route :=
  let url := BASE_URL ++ path in
  if negb (Nat.eqb (size parameters) 0) then
    match pystr.format_map py_str url (quote_if_str <$> parameters) with
    | inl e => inl e
    | inr url => inr {| method := method; path := path; url := url |}
    end
  else inr {| method := method; path := path; url := url |}.

End Route.

(** ** The collaborators of the request engine *)

(** Modelled from the spec: [utils.json_or_text] is not part of [http.py];
    by section 4.2 of the specification it decodes the body as JSON or as
    text and never raises.  So one [session.request(...)] exchange followed
    by [utils.json_or_text(response)] gives an exception raised by the
    transport before any response exists, or a response with its decoded
    body. *)
Inductive Outcome :=
| Raised (e : exn)
| Responded (response : Response) (response_data : value).

(** The argument of [asyncio.sleep]: an [int] number of seconds, or the
    float that [float(text)] denotes. *)
Inductive delay :=
| Seconds (n : Z)
| FloatOf (text : string).

(** Everything the module imports from outside [http.py].  [C] is the state
    of a credentials object ([objects.ClientCredentials] or
    [objects.UserCredentials]). *)
Record Env {C : Type} := {
  (** [str(v)] of a value that is not a [str] *)
  py_str : value -> string;
  (** does [float(text)] return (rather than raise [ValueError]) *)
  float_parses : string -> bool;
  (** [json.dumps] *)
  json_dumps : value -> string;
  (** [values.EXCEPTION_MAPPING], a dict from status to exception class *)
  EXCEPTION_MAPPING : gmap Z string;
  (** [values.VALID_SEED_KWARGS] *)
  VALID_SEED_KWARGS : list string;
  (** [utils.limit_value(name, value, minimum, maximum)]: the exception it
      raises, if any *)
  limit_value : string -> value -> Z -> Z -> option exn;
  is_expired : C -> bool;
  access_token : C -> string;
  (** [refresh] mutates the object and may raise *)
  refresh : C -> C * option exn;
  (** [objects.ClientCredentials.from_client_secret] *)
  from_client_secret : string -> string -> result C;
  (** the [n]-th exchange made through the session *)
  transport : nat -> Outcome
}.
Arguments Env C : clear implicits.

(** ** State *)

Definition loc := nat.

(** [aiohttp.ClientSession] *)
Record ClientSession := { closed : bool }.

Inductive Event :=
| NewSession
| CloseSession
| FromClientSecret (client_id client_secret : string)
| IsExpired (credentials : loc) (answer : bool)
| Refresh (credentials : loc)
| SessionRequest (method : HTTPMethod) (url : string)
    (headers : gmap string string) (params : option (gmap string value))
    (data : option string)
| Sleep (d : delay).

(** The attributes of an [HTTPClient] instance. *)
Record HTTPClient := {
  _client_id : string;
  _client_secret : string;
  _session : option ClientSession;
  _client_credentials : option loc
}.

(** The client, the credentials objects reachable from it or from its
    callers, the number of exchanges made so far, and the calls made to the
    outside, oldest first.  Logging is not recorded. *)
Record World {C : Type} := {
  self : HTTPClient;
  heap : loc -> C;
  next_loc : loc;
  exchanges : nat;
  trace : list Event
}.
Arguments World C : clear implicits.

(** ** The monad of the coroutines *)

Definition M (C A : Type) : Type := World C -> result A * World C.

Section Monad.

Context {C : Type}.

Definition ret {A} (a : A) : M C A := λ w, (inr a, w).

Definition raise {A} (e : exn) : M C A := λ w, (inl e, w).

Definition bind {A B} (m : M C A) (k : A -> M C B) : M C B :=
  λ w, match m w with
       | (inl e, w') => (inl e, w')
       | (inr a, w') => k a w'
       end.

(** [try: body  except ...: handler] *)
Definition try_except {A} (body : M C A) (handler : exn -> M C A) : M C A :=
  λ w, match body w with
       | (inl e, w') => handler e w'
       | (inr a, w') => (inr a, w')
       end.

Definition lift {A} (r : result A) : M C A := λ w, (r, w).

Definition get_self : M C HTTPClient := λ w, (inr (self w), w).

Definition set_self (c : HTTPClient) : M C unit :=
  λ w, (inr tt, {| self := c; heap := heap w; next_loc := next_loc w;
                   exchanges := exchanges w; trace := trace w |}).

Definition emit (ev : Event) : M C unit :=
  λ w, (inr tt, {| self := self w; heap := heap w; next_loc := next_loc w;
                   exchanges := exchanges w; trace := trace w ++ [ev] |}).

Definition read (l : loc) : M C C := λ w, (inr (heap w l), w).

Definition write (l : loc) (s : C) : M C unit :=
  λ w, (inr tt, {| self := self w;
                   heap := λ l', if Nat.eqb l' l then s else heap w l';
                   next_loc := next_loc w;
                   exchanges := exchanges w; trace := trace w |}).

Definition alloc (s : C) : M C loc :=
  λ w, (inr (next_loc w),
        {| self := self w;
           heap := λ l', if Nat.eqb l' (next_loc w) then s else heap w l';
           next_loc := S (next_loc w);
           exchanges := exchanges w; trace := trace w |}).

(** The outcome of the next exchange, as the transport decides it. *)
Definition next_outcome (E : Env C) : M C Outcome :=
  λ w, (inr (transport E (exchanges w)),
        {| self := self w; heap := heap w; next_loc := next_loc w;
           exchanges := S (exchanges w); trace := trace w |}).

End Monad.

#[global] Instance M_ret C : MRet (M C) := λ A, @ret C A.
#[global] Instance M_bind C : MBind (M C) := λ A B k m, @bind C A B m k.

(** [response.headers[key]]: the headers are a case-insensitive multidict,
    and subscripting gives the first value stored under the key. *)
Definition lower_ascii (c : ascii) : ascii :=
  if urllib.in_range "A" "Z" c
  then ascii_of_N (N_of_ascii c + 32)
  else c.

Fixpoint lower (s : string) : string :=
  match s with
  | EmptyString => EmptyString
  | String c s' => String (lower_ascii c) (lower s')
  end.

Fixpoint headers_getitem (hs : list (string * string)) (key : string)
  : option string :=
  match hs with
  | [] => None
  | (k, v) :: hs' =>
      if String.eqb (lower k) (lower key) then Some v
      else headers_getitem hs' key
  end.

(** [bool(response)]: [aiohttp.ClientResponse] defines neither [__bool__]
    nor [__len__]. *)
Definition Response_bool (response : Response) : bool := true.

(** [obj[key]] for a [str] key *)
Definition getitem (obj : value) (key : string) : result value :=
  match obj with
  | VDict d =>
      match d !! key with
      | Some v => inr v
      | None => inl (KeyError (VStr key))
      end
  | _ => inl TypeError
  end.

(** [obj.get(key)] *)
Definition dict_get (obj : value) (key : string) : result value :=
  match obj with
  | VDict d =>
      match d !! key with
      | Some v => inr v
      | None => inr VNone
      end
  | _ => inl AttributeError
  end.

Definition errno_in (errno : option Z) (codes : list Z) : bool :=
  match errno with
  | Some n => existsb (Z.eqb n) codes
  | None => false
  end.

(** How one pass through the body of [for tries in range(3)] ends: by
    [return], or by reaching the next iteration ([continue] or the end of
    the body) with the locals [response] and [response_data] as they are
    then, unbound while no exchange has produced a response. *)
Inductive iteration :=
| Return (v : value)
| Next (locals : option (Response * value)).

Section Client.

Context {C : Type} (E : Env C).

(** *** Session and credentials *)

Definition with_session (c : HTTPClient) (s : option ClientSession)
  : HTTPClient :=
  {| _client_id := _client_id c; _client_secret := _client_secret c;
     _session := s; _client_credentials := _client_credentials c |}.

Definition with_client_credentials (c : HTTPClient) (l : option loc)
  : HTTPClient :=
  {| _client_id := _client_id c; _client_secret := _client_secret c;
     _session := _session c; _client_credentials := l |}.

(** [HTTPClient._ensure_session_exists] *)
Definition _ensure_session_exists : M C unit :=
  c ← get_self;
  if match _session c with
     | Some session => negb (closed session)
     | None => false
     end
  then mret tt
  else
    emit NewSession;;
    set_self (with_session c (Some {| closed := false |})).

(** [HTTPClient._get_credentials] *)
Definition _get_credentials (credentials : option loc) : M C loc :=
  c ← get_self;
  fallback ←
    match _client_credentials c with
    | Some l => mret l
    | None =>
        emit (FromClientSecret (_client_id c) (_client_secret c));;
        s ← lift (from_client_secret E (_client_id c) (_client_secret c));
        l ← alloc s;
        set_self (with_client_credentials c (Some l));;
        mret l
    end;
  let _credentials :=
    match credentials with
    | Some l => l
    | None => fallback
    end in
  s ← read _credentials;
  emit (IsExpired _credentials (is_expired E s));;
  (if is_expired E s then
     emit (Refresh _credentials);;
     write _credentials (fst (refresh E s));;
     match snd (refresh E s) with
     | Some e => raise e
     | None => mret tt
     end
   else mret tt);;
  mret _credentials.

(** [HTTPClient.close] *)
Definition close : M C unit :=
  c ← get_self;
  match _session c with
  | None => mret tt
  | Some session =>
      if closed session then mret tt
      else
        emit CloseSession;;
        set_self (with_session c None)
  end.

(** *** The retry loop *)

Definition sleep (d : delay) : M C unit := emit (Sleep d).

Section Request.

Variables (route : Route) (request_headers : gmap string string)
  (parameters : option (gmap string value)) (data : value).

(** [self._session.request(...)] followed by
    [utils.json_or_text(response)]. *)
Definition exchange : M C Outcome :=
  emit (SessionRequest (method route) (url route) request_headers
          parameters
          (if truthy data then Some (json_dumps E data) else None));;
  next_outcome E.

(** The [try] block of one iteration. *)
Definition try_body (tries : Z) (locals : option (Response * value))
  : M C iteration :=
  o ← exchange;
  match o with
  | Raised e => raise e
  | Responded response response_data =>
      if (200 <=? status response) && (status response <? 300) then
        mret (Return response_data)
      else if status response =? 413 then
        raise (RequestEntityTooLarge response
                 (VDict {[ "status" := VInt 413;
                           "message" := VStr "Request entity too large." ]}))
      else if status response =? 429 then
        match headers_getitem (headers response) "Retry-After" with
        | None => raise (KeyError (VStr "Retry-After"))
        | Some text =>
            if float_parses E text then
              sleep (FloatOf text);;
              mret (Next (Some (response, response_data)))
            else raise (ValueError "could not convert string to float")
        end
      else if existsb (Z.eqb (status response)) [500; 502; 503] then
        sleep (Seconds (1 + tries * 2));;
        mret (Next (Some (response, response_data)))
      else
        error ← lift (dict_get response_data "error");
        if truthy error then
          match EXCEPTION_MAPPING E !! status response with
          | Some cls => raise (MappedError cls response error)
          | None => raise (KeyError (VInt (status response)))
          end
        else mret (Next (Some (response, response_data)))
  end.

(** The [except OSError as error] clause. *)
Definition except_OSError (tries : Z)
  (locals : option (Response * value)) (e : exn) : M C iteration :=
  match e with
  | OSError errno =>
      if (tries <? 4) && errno_in errno [54; 10054] then
        sleep (Seconds (1 + tries * 2));;
        mret (Next locals)
      else raise e
  | _ => raise e
  end.

(** [for tries in range(...)]: the loop over the remaining values of
    [tries]. *)
Fixpoint for_tries (range : list Z) (locals : option (Response * value))
  : M C iteration :=
  match range with
  | [] => mret (Next locals)
  | tries :: range' =>
      it ← try_except (try_body tries locals)
             (except_OSError tries locals);
      match it with
      | Return v => mret (Return v)
      | Next locals' => for_tries range' locals'
      end
  end.

(** The statements after the loop. *)
Definition after_loop (locals : option (Response * value)) : M C value :=
  match locals with
  | None => raise (UnboundLocalError "response")
  | Some (response, response_data) =>
      if Response_bool response then
        error ← lift (getitem response_data "error");
        raise (HTTPError response error)
      else raise (RuntimeError "This shouldn't happen.")
  end.

End Request.

(** [HTTPClient.request], up to the loop: the session, the credentials
    and the headers. *)
Definition prepare (credentials : option loc) : M C (gmap string string) :=
  _ensure_session_exists;;
  c ← get_self;
  (if _session c is Some _ then mret tt else raise AssertionError);;
  credentials ← _get_credentials credentials;
  s ← read credentials;
  mret ({[ "Content-Type" := "application/json";
           "Authorization" := "Bearer " ++ access_token E s ]}
        : gmap string string).

(** [HTTPClient.request], from the loop on. *)
Definition attempts (route : Route) (request_headers : gmap string string)
  (parameters : option (gmap string value)) (data : value) : M C value :=
  it ← for_tries route request_headers parameters data [0; 1; 2] None;
  match it with
  | Return v => mret v
  | Next locals => after_loop locals
  end.

(** [HTTPClient.request] *)
Definition request (route : Route) (credentials : option loc)
  (parameters : option (gmap string value)) (data : value) : M C value :=
  request_headers ← prepare credentials;
  attempts route request_headers parameters data.

End Client.

(** ** The endpoint methods with a bounded list or an optional [limit] *)

(** A member of one of the enumerations of [aiospotify.objects]
    ([IncludeGroup], [SearchType], [TimeRange]); a member is truthy
    whatever its [value]. *)
Record EnumMember := { enum_value : string }.

Section Endpoints.

Context {C : Type} (E : Env C).

Definition raise_if (c : bool) (e : exn) : M C unit :=
  if c then raise e else mret tt.

Definition check (r : option exn) : M C unit :=
  match r with
  | Some e => raise e
  | None => mret tt
  end.

(** [Route(method, path, **parameters)], evaluated as an argument of
    [self.request]. *)
Definition new_Route (method : HTTPMethod) (path : string)
  (parameters : gmap string value) : M C Route :=
  lift (Route_init (py_str E) method path parameters).

(** ALBUMS API *)

Definition get_albums (ids : list string) (market : value)
  (credentials : option loc) : M C value :=
  raise_if (20 <? length ids)%nat
    (ValueError "'ids' can not contain more than 20 ids.");;
  let parameters : gmap string value :=
    {[ "ids" := VStr (pystr.join "," ids) ]} in
  let parameters :=
    if truthy market then <[ "market" := market ]> parameters
    else parameters in
  route ← new_Route GET "/albums" ∅;
  request E route credentials (Some parameters) VNone.

Definition get_album_tracks (_id : string) (market : value)
  (limit offset : value)
  (credentials : option loc) : M C value :=
  let parameters : gmap string value := ∅ in
  let parameters :=
    if truthy market then <[ "market" := market ]> parameters
    else parameters in
  parameters ←
    (if truthy limit then
       check (limit_value E "limit" limit 1 50);;
       mret (<[ "limit" := limit ]> parameters)
     else mret parameters);
  let parameters :=
    if truthy offset then <[ "offset" := offset ]> parameters
    else parameters in
  route ← new_Route GET "/albums/{id}/tracks" {[ "id" := VStr _id ]};
  request E route credentials (Some parameters) VNone.

Definition get_saved_albums (market : value) (limit offset : value)
  (credentials : option loc) : M C value :=
  let parameters : gmap string value := ∅ in
  let parameters :=
    if truthy market then <[ "market" := market ]> parameters
    else parameters in
  parameters ←
    (if truthy limit then
       check (limit_value E "limit" limit 1 50);;
       mret (<[ "limit" := limit ]> parameters)
     else mret parameters);
  let parameters :=
    if truthy offset then <[ "offset" := offset ]> parameters
    else parameters in
  route ← new_Route GET "/me/albums" ∅;
  request E route credentials (Some parameters) VNone.

Definition save_albums (ids : list string)
  (credentials : option loc) : M C value :=
  raise_if (50 <? length ids)%nat
    (ValueError "'ids' can not contain more than 50 ids.");;
  let parameters : gmap string value :=
    {[ "ids" := VStr (pystr.join "," ids) ]} in
  route ← new_Route PUT "/me/albums" ∅;
  request E route credentials (Some parameters) VNone.

Definition remove_albums (ids : list string)
  (credentials : option loc) : M C value :=
  raise_if (50 <? length ids)%nat
    (ValueError "'ids' can not contain more than 50 ids.");;
  let parameters : gmap string value :=
    {[ "ids" := VStr (pystr.join "," ids) ]} in
  route ← new_Route DELETE "/me/albums" ∅;
  request E route credentials (Some parameters) VNone.

Definition check_saved_albums (ids : list string)
  (credentials : option loc) : M C value :=
  raise_if (50 <? length ids)%nat
    (ValueError "'ids' can not contain more than 50 ids.");;
  let parameters : gmap string value :=
    {[ "ids" := VStr (pystr.join "," ids) ]} in
  route ← new_Route GET "/me/albums/contains" ∅;
  request E route credentials (Some parameters) VNone.

Definition get_new_releases (country : value) (limit offset : value)
  (credentials : option loc) : M C value :=
  let parameters : gmap string value := ∅ in
  let parameters :=
    if truthy country then <[ "country" := country ]> parameters
    else parameters in
  parameters ←
    (if truthy limit then
       check (limit_value E "limit" limit 1 50);;
       mret (<[ "limit" := limit ]> parameters)
     else mret parameters);
  let parameters :=
    if truthy offset then <[ "offset" := offset ]> parameters
    else parameters in
  route ← new_Route GET "/browse/new-releases" ∅;
  request E route credentials (Some parameters) VNone.

(** ARTISTS API *)

Definition get_artists (ids : list string) (market : value)
  (credentials : option loc) : M C value :=
  raise_if (50 <? length ids)%nat
    (ValueError "'ids' can not contain more than 50 ids.");;
  let parameters : gmap string value :=
    {[ "ids" := VStr (pystr.join "," ids) ]} in
  let parameters :=
    if truthy market then <[ "market" := market ]> parameters
    else parameters in
  route ← new_Route GET "/artists" ∅;
  request E route credentials (Some parameters) VNone.

Definition get_artist_albums (_id : string) (market : value)
  (limit offset : value) (include_groups : option (list EnumMember))
  (credentials : option loc) : M C value :=
  let parameters : gmap string value := ∅ in
  let parameters :=
    if truthy market then <[ "market" := market ]> parameters
    else parameters in
  parameters ←
    (if truthy limit then
       check (limit_value E "limit" limit 1 50);;
       mret (<[ "limit" := limit ]> parameters)
     else mret parameters);
  let parameters :=
    if truthy offset then <[ "offset" := offset ]> parameters
    else parameters in
  let parameters :=
    if truthy_list include_groups then
      <[ "include_groups" :=
           VStr (pystr.join "," (enum_value <$> default [] include_groups)) ]>
        parameters
    else parameters in
  route ← new_Route GET "/artists/{id}/albums" {[ "id" := VStr _id ]};
  request E route credentials (Some parameters) VNone.

(** SHOWS API *)

Definition get_shows (ids : list string) (market : value)
  (credentials : option loc) : M C value :=
  raise_if (50 <? length ids)%nat
    (ValueError "'ids' can not contain more than 50 ids.");;
  let parameters : gmap string value :=
    {[ "ids" := VStr (pystr.join "," ids) ]} in
  let parameters :=
    if truthy market then <[ "market" := market ]> parameters
    else parameters in
  route ← new_Route GET "/shows" ∅;
  request E route credentials (Some parameters) VNone.

Definition get_show_episodes (_id : string) (market : value)
  (limit offset : value)
  (credentials : option loc) : M C value :=
  let parameters : gmap string value := ∅ in
  let parameters :=
    if truthy market then <[ "market" := market ]> parameters
    else parameters in
  parameters ←
    (if truthy limit then
       check (limit_value E "limit" limit 1 50);;
       mret (<[ "limit" := limit ]> parameters)
     else mret parameters);
  let parameters :=
    if truthy offset then <[ "offset" := offset ]> parameters
    else parameters in
  route ← new_Route GET "/shows/{id}/episodes" {[ "id" := VStr _id ]};
  request E route credentials (Some parameters) VNone.

Definition get_saved_shows (limit offset : value)
  (credentials : option loc) : M C value :=
  let parameters : gmap string value := ∅ in
  parameters ←
    (if truthy limit then
       check (limit_value E "limit" limit 1 50);;
       mret (<[ "limit" := limit ]> parameters)
     else mret parameters);
  let parameters :=
    if truthy offset then <[ "offset" := offset ]> parameters
    else parameters in
  route ← new_Route GET "/me/shows" ∅;
  request E route credentials (Some parameters) VNone.

Definition save_shows (ids : list string)
  (credentials : option loc) : M C value :=
  raise_if (50 <? length ids)%nat
    (ValueError "'ids' can not contain more than 50 ids.");;
  let parameters : gmap string value :=
    {[ "ids" := VStr (pystr.join "," ids) ]} in
  route ← new_Route PUT "/me/shows" ∅;
  request E route credentials (Some parameters) VNone.

Definition remove_shows (ids : list string)
  (credentials : option loc) : M C value :=
  raise_if (50 <? length ids)%nat
    (ValueError "'ids' can not contain more than 50 ids.");;
  let parameters : gmap string value :=
    {[ "ids" := VStr (pystr.join "," ids) ]} in
  route ← new_Route DELETE "/me/shows" ∅;
  request E route credentials (Some parameters) VNone.

Definition check_saved_shows (ids : list string)
  (credentials : option loc) : M C value :=
  raise_if (50 <? length ids)%nat
    (ValueError "'ids' can not contain more than 50 ids.");;
  let parameters : gmap string value :=
    {[ "ids" := VStr (pystr.join "," ids) ]} in
  route ← new_Route GET "/me/shows/contains" ∅;
  request E route credentials (Some parameters) VNone.

(** EPISODE API *)

Definition get_episodes (ids : list string) (market : value)
  (credentials : option loc) : M C value :=
  raise_if (50 <? length ids)%nat
    (ValueError "'ids' can not contain more than 50 ids.");;
  let parameters : gmap string value :=
    {[ "ids" := VStr (pystr.join "," ids) ]} in
  let parameters :=
    if truthy market then <[ "market" := market ]> parameters
    else parameters in
  route ← new_Route GET "/episodes" ∅;
  request E route credentials (Some parameters) VNone.

Definition get_saved_episodes (market : value) (limit offset : value)
  (credentials : option loc) : M C value :=
  let parameters : gmap string value := ∅ in
  let parameters :=
    if truthy market then <[ "market" := market ]> parameters
    else parameters in
  parameters ←
    (if truthy limit then
       check (limit_value E "limit" limit 1 50);;
       mret (<[ "limit" := limit ]> parameters)
     else mret parameters);
  let parameters :=
    if truthy offset then <[ "offset" := offset ]> parameters
    else parameters in
  route ← new_Route GET "/me/episodes" ∅;
  request E route credentials (Some parameters) VNone.

Definition save_episodes (ids : list string)
  (credentials : option loc) : M C value :=
  raise_if (50 <? length ids)%nat
    (ValueError "'ids' can not contain more than 50 ids.");;
  let parameters : gmap string value :=
    {[ "ids" := VStr (pystr.join "," ids) ]} in
  route ← new_Route PUT "/me/episodes" ∅;
  request E route credentials (Some parameters) VNone.

Definition remove_episodes (ids : list string)
  (credentials : option loc) : M C value :=
  raise_if (50 <? length ids)%nat
    (ValueError "'ids' can not contain more than 50 ids.");;
  let parameters : gmap string value :=
    {[ "ids" := VStr (pystr.join "," ids) ]} in
  route ← new_Route DELETE "/me/episodes" ∅;
  request E route credentials (Some parameters) VNone.

Definition check_saved_episodes (ids : list string)
  (credentials : option loc) : M C value :=
  raise_if (50 <? length ids)%nat
    (ValueError "'ids' can not contain more than 50 ids.");;
  let parameters : gmap string value :=
    {[ "ids" := VStr (pystr.join "," ids) ]} in
  route ← new_Route GET "/me/episodes/contains" ∅;
  request E route credentials (Some parameters) VNone.

(** TRACKS API *)

Definition get_tracks (ids : list string) (market : value)
  (credentials : option loc) : M C value :=
  raise_if (50 <? length ids)%nat
    (ValueError "'ids' can not contain more than 50 ids.");;
  let parameters : gmap string value :=
    {[ "ids" := VStr (pystr.join "," ids) ]} in
  let parameters :=
    if truthy market then <[ "market" := market ]> parameters
    else parameters in
  route ← new_Route GET "/tracks" ∅;
  request E route credentials (Some parameters) VNone.

Definition get_saved_tracks (market : value) (limit offset : value)
  (credentials : option loc) : M C value :=
  let parameters : gmap string value := ∅ in
  let parameters :=
    if truthy market then <[ "market" := market ]> parameters
    else parameters in
  parameters ←
    (if truthy limit then
       check (limit_value E "limit" limit 1 50);;
       mret (<[ "limit" := limit ]> parameters)
     else mret parameters);
  let parameters :=
    if truthy offset then <[ "offset" := offset ]> parameters
    else parameters in
  route ← new_Route GET "/me/tracks" ∅;
  request E route credentials (Some parameters) VNone.

Definition save_tracks (ids : list string)
  (credentials : option loc) : M C value :=
  raise_if (50 <? length ids)%nat
    (ValueError "'ids' can not contain more than 50 ids.");;
  let parameters : gmap string value :=
    {[ "ids" := VStr (pystr.join "," ids) ]} in
  route ← new_Route PUT "/me/tracks" ∅;
  request E route credentials (Some parameters) VNone.

Definition remove_tracks (ids : list string)
  (credentials : option loc) : M C value :=
  raise_if (50 <? length ids)%nat
    (ValueError "'ids' can not contain more than 50 ids.");;
  let parameters : gmap string value :=
    {[ "ids" := VStr (pystr.join "," ids) ]} in
  route ← new_Route DELETE "/me/tracks" ∅;
  request E route credentials (Some parameters) VNone.

Definition check_saved_tracks (ids : list string)
  (credentials : option loc) : M C value :=
  raise_if (50 <? length ids)%nat
    (ValueError "'ids' can not contain more than 50 ids.");;
  let parameters : gmap string value :=
    {[ "ids" := VStr (pystr.join "," ids) ]} in
  route ← new_Route GET "/me/tracks/contains" ∅;
  request E route credentials (Some parameters) VNone.

Definition get_several_tracks_audio_features (ids : list string)
  (credentials : option loc) : M C value :=
  raise_if (100 <? length ids)%nat
    (ValueError "'ids' can not contain more than 100 ids.");;
  let parameters : gmap string value :=
    {[ "ids" := VStr (pystr.join "," ids) ]} in
  route ← new_Route GET "/audio-features" ∅;
  request E route credentials (Some parameters) VNone.

(** [len([seed for seeds in [a or [], b or [], c or []] for seed in seeds])] *)
Definition count_seeds (seed_artist_ids seed_genres seed_track_ids
  : option (list string)) : nat :=
  (length (default [] seed_artist_ids) + length (default [] seed_genres)
   + length (default [] seed_track_ids))%nat.

(** The loop [for key, value in kwargs.items()] of [get_recommendations]. *)
Fixpoint add_seed_kwargs (kwargs : list (string * value))
  (parameters : gmap string value) : M C (gmap string value) :=
  match kwargs with
  | [] => mret parameters
  | (key, v) :: kwargs' =>
      raise_if (negb (existsb (String.eqb key) (VALID_SEED_KWARGS E)))
        (ValueError ("'" ++ key ++ "' is not a valid kwarg."));;
      add_seed_kwargs kwargs' (<[ key := v ]> parameters)
  end.

Definition get_recommendations
  (seed_artist_ids seed_genres seed_track_ids : option (list string))
  (limit market : value) (credentials : option loc)
  (kwargs : list (string * value)) : M C value :=
  let seeds := count_seeds seed_artist_ids seed_genres seed_track_ids in
  raise_if ((seeds <? 1)%nat || (5 <? seeds)%nat)
    (ValueError "too many or no seed values provided. min 1, max 5.");;
  let parameters : gmap string value := ∅ in
  let parameters :=
    if truthy_list seed_artist_ids then
      <[ "seed_artists" :=
           VStr (pystr.join "," (default [] seed_artist_ids)) ]> parameters
    else parameters in
  let parameters :=
    if truthy_list seed_genres then
      <[ "seed_genres" :=
           VStr (pystr.join "," (default [] seed_genres)) ]> parameters
    else parameters in
  let parameters :=
    if truthy_list seed_track_ids then
      <[ "seed_tracks" :=
           VStr (pystr.join "," (default [] seed_track_ids)) ]> parameters
    else parameters in
  parameters ← add_seed_kwargs kwargs parameters;
  parameters ←
    (if truthy limit then
       check (limit_value E "limit" limit 1 100);;
       mret (<[ "limit" := limit ]> parameters)
     else mret parameters);
  let parameters :=
    if truthy market then <[ "market" := market ]> parameters
    else parameters in
  route ← new_Route GET "/recommendations" ∅;
  request E route credentials (Some parameters) VNone.

(** SEARCH API *)

Definition search (query : string) (search_types : list EnumMember)
  (include_external : bool) (market limit offset : value)
  (credentials : option loc) : M C value :=
  let parameters : gmap string value :=
    {[ "q" := VStr (pystr.replace_space_plus query);
       "type" := VStr (pystr.join "," (enum_value <$> search_types)) ]} in
  let parameters :=
    if include_external
    then <[ "include_external" := VStr "audio" ]> parameters
    else parameters in
  let parameters :=
    if truthy market then <[ "market" := market ]> parameters
    else parameters in
  parameters ←
    (if truthy limit then
       check (limit_value E "limit" limit 1 50);;
       mret (<[ "limit" := limit ]> parameters)
     else mret parameters);
  let parameters :=
    if truthy offset then <[ "offset" := offset ]> parameters
    else parameters in
  route ← new_Route GET "/search" ∅;
  request E route credentials (Some parameters) VNone.

(** USERS API *)

Definition get_current_user_top_artists (limit offset : value)
  (time_range : option EnumMember)
  (credentials : option loc) : M C value :=
  let parameters : gmap string value := ∅ in
  parameters ←
    (if truthy limit then
       check (limit_value E "limit" limit 1 50);;
       mret (<[ "limit" := limit ]> parameters)
     else mret parameters);
  let parameters :=
    if truthy offset then <[ "offset" := offset ]> parameters
    else parameters in
  let parameters :=
    match time_range with
    | Some member => <[ "time_range" := VStr (enum_value member) ]> parameters
    | None => parameters
    end in
  route ← new_Route GET "/me/top/artists" ∅;
  request E route credentials (Some parameters) VNone.

Definition get_current_user_top_tracks (limit offset : value)
  (time_range : option EnumMember)
  (credentials : option loc) : M C value :=
  let parameters : gmap string value := ∅ in
  parameters ←
    (if truthy limit then
       check (limit_value E "limit" limit 1 50);;
       mret (<[ "limit" := limit ]> parameters)
     else mret parameters);
  let parameters :=
    if truthy offset then <[ "offset" := offset ]> parameters
    else parameters in
  let parameters :=
    match time_range with
    | Some member => <[ "time_range" := VStr (enum_value member) ]> parameters
    | None => parameters
    end in
  route ← new_Route GET "/me/top/tracks" ∅;
  request E route credentials (Some parameters) VNone.

Definition check_if_users_follow_playlists (playlist_id : string)
  (user_ids : list string) (credentials : option loc) : M C value :=
  raise_if (5 <? length user_ids)%nat
    (ValueError "'ids' can not contain more than 5 ids.");;
  let parameters : gmap string value :=
    {[ "ids" := VStr (pystr.join "," user_ids) ]} in
  route ← new_Route GET "/playlists/{playlist_id}/followers/contains"
            {[ "playlist_id" := VStr playlist_id ]};
  request E route credentials (Some parameters) VNone.

Definition get_followed_artists (limit offset : value)
  (credentials : option loc) : M C value :=
  let parameters : gmap string value :=
    {[ "type" := VStr "artist" ]} in
  parameters ←
    (if truthy limit then
       check (limit_value E "limit" limit 1 50);;
       mret (<[ "limit" := limit ]> parameters)
     else mret parameters);
  let parameters :=
    if truthy offset then <[ "offset" := offset ]> parameters
    else parameters in
  route ← new_Route GET "/me/following" ∅;
  request E route credentials (Some parameters) VNone.

Definition follow_users (ids : list string)
  (credentials : option loc) : M C value :=
  raise_if (50 <? length ids)%nat
    (ValueError "'ids' can not contain more than 50 ids.");;
  let parameters : gmap string value :=
    {[ "type" := VStr "user";
       "ids" := VStr (pystr.join "," ids) ]} in
  route ← new_Route PUT "/me/following" ∅;
  request E route credentials (Some parameters) VNone.

Definition follow_artists (ids : list string)
  (credentials : option loc) : M C value :=
  raise_if (50 <? length ids)%nat
    (ValueError "'ids' can not contain more than 50 ids.");;
  let parameters : gmap string value :=
    {[ "type" := VStr "artist";
       "ids" := VStr (pystr.join "," ids) ]} in
  route ← new_Route PUT "/me/following" ∅;
  request E route credentials (Some parameters) VNone.

Definition unfollow_users (ids : list string)
  (credentials : option loc) : M C value :=
  raise_if (50 <? length ids)%nat
    (ValueError "'ids' can not contain more than 50 ids.");;
  let parameters : gmap string value :=
    {[ "type" := VStr "user";
       "ids" := VStr (pystr.join "," ids) ]} in
  route ← new_Route DELETE "/me/following" ∅;
  request E route credentials (Some parameters) VNone.

Definition unfollow_artists (ids : list string)
  (credentials : option loc) : M C value :=
  raise_if (50 <? length ids)%nat
    (ValueError "'ids' can not contain more than 50 ids.");;
  let parameters : gmap string value :=
    {[ "type" := VStr "artist";
       "ids" := VStr (pystr.join "," ids) ]} in
  route ← new_Route DELETE "/me/following" ∅;
  request E route credentials (Some parameters) VNone.

Definition check_followed_users (ids : list string)
  (credentials : option loc) : M C value :=
  raise_if (50 <? length ids)%nat
    (ValueError "'ids' can not contain more than 50 ids.");;
  let parameters : gmap string value :=
    {[ "type" := VStr "user";
       "ids" := VStr (pystr.join "," ids) ]} in
  route ← new_Route GET "/me/following/contains" ∅;
  request E route credentials (Some parameters) VNone.

Definition check_followed_artists (ids : list string)
  (credentials : option loc) : M C value :=
  raise_if (50 <? length ids)%nat
    (ValueError "'ids' can not contain more than 50 ids.");;
  let parameters : gmap string value :=
    {[ "type" := VStr "artist";
       "ids" := VStr (pystr.join "," ids) ]} in
  route ← new_Route GET "/me/following/contains" ∅;
  request E route credentials (Some parameters) VNone.

(** PLAYLISTS API *)

Definition get_playlist_items (_id : string) (market fields : value)
  (limit offset : value) (credentials : option loc) : M C value :=
  let parameters : gmap string value :=
    {[ "additional_types" := VStr "track" ]} in
  let parameters :=
    if truthy market then <[ "market" := market ]> parameters
    else parameters in
  let parameters :=
    if truthy fields then <[ "fields" := fields ]> parameters
    else parameters in
  parameters ←
    (if truthy limit then
       check (limit_value E "limit" limit 1 100);;
       mret (<[ "limit" := limit ]> parameters)
     else mret parameters);
  let parameters :=
    if truthy offset then <[ "offset" := offset ]> parameters
    else parameters in
  route ← new_Route GET "/playlists/{id}/tracks" {[ "id" := VStr _id ]};
  request E route credentials (Some parameters) VNone.

Definition add_items_to_playlist (_id : string) (uris : list string)
  (position : value) (credentials : option loc) : M C value :=
  raise_if (100 <? length uris)%nat
    (ValueError "'uris' can not contain more than 100 URI's.");;
  let data : gmap string value :=
    {[ "uris" := VList (VStr <$> uris) ]} in
  let data :=
    if truthy position then <[ "position" := position ]> data
    else data in
  route ← new_Route POST "/playlists/{id}/tracks" {[ "id" := VStr _id ]};
  request E route credentials None (VDict data).

Definition replace_playlist_items (_id : string) (uris : list string)
  (credentials : option loc) : M C value :=
  raise_if (100 <? length uris)%nat
    (ValueError "'uris' can not contain more than 100 URI's.");;
  let data : gmap string value :=
    {[ "uris" := VList (VStr <$> uris) ]} in
  route ← new_Route PUT "/playlists/{id}/tracks" {[ "id" := VStr _id ]};
  request E route credentials None (VDict data).

Definition remove_items_from_playlist (_id : string) (uris : list string)
  (snapshot_id : value) (credentials : option loc) : M C value :=
  raise_if (100 <? length uris)%nat
    (ValueError "'uris' can not contain more than 100 URI's.");;
  let data : gmap string value :=
    {[ "tracks" :=
         VList ((λ uri, VDict {[ "uri" := VStr uri ]}) <$> uris) ]} in
  let data :=
    if truthy snapshot_id then <[ "snapshot_id" := snapshot_id ]> data
    else data in
  route ← new_Route DELETE "/playlists/{id}/tracks" {[ "id" := VStr _id ]};
  request E route credentials None (VDict data).

Definition get_current_user_playlists (limit offset : value)
  (credentials : option loc) : M C value :=
  let parameters : gmap string value := ∅ in
  parameters ←
    (if truthy limit then
       check (limit_value E "limit" limit 1 50);;
       mret (<[ "limit" := limit ]> parameters)
     else mret parameters);
  let parameters :=
    if truthy offset then <[ "offset" := offset ]> parameters
    else parameters in
  route ← new_Route GET "/me/playlists" ∅;
  request E route credentials (Some parameters) VNone.

Definition get_user_playlists (_id : string) (limit offset : value)
  (credentials : option loc) : M C value :=
  let parameters : gmap string value := ∅ in
  parameters ←
    (if truthy limit then
       check (limit_value E "limit" limit 1 50);;
       mret (<[ "limit" := limit ]> parameters)
     else mret parameters);
  let parameters :=
    if truthy offset then <[ "offset" := offset ]> parameters
    else parameters in
  route ← new_Route GET "/users/{id}/playlists" {[ "id" := VStr _id ]};
  request E route credentials (Some parameters) VNone.

Definition get_featured_playlists (country : value) (locale : value)
  (timestamp : value) (limit offset : value)
  (credentials : option loc) : M C value :=
  let parameters : gmap string value := ∅ in
  let parameters :=
    if truthy country then <[ "country" := country ]> parameters
    else parameters in
  let parameters :=
    if truthy locale then <[ "locale" := locale ]> parameters
    else parameters in
  let parameters :=
    if truthy timestamp then <[ "timestamp" := timestamp ]> parameters
    else parameters in
  parameters ←
    (if truthy limit then
       check (limit_value E "limit" limit 1 50);;
       mret (<[ "limit" := limit ]> parameters)
     else mret parameters);
  let parameters :=
    if truthy offset then <[ "offset" := offset ]> parameters
    else parameters in
  route ← new_Route GET "/browse/featured-playlists" ∅;
  request E route credentials (Some parameters) VNone.

Definition get_category_playlists (_id : string) (country : value)
  (limit offset : value)
  (credentials : option loc) : M C value :=
  let parameters : gmap string value := ∅ in
  let parameters :=
    if truthy country then <[ "country" := country ]> parameters
    else parameters in
  parameters ←
    (if truthy limit then
       check (limit_value E "limit" limit 1 50);;
       mret (<[ "limit" := limit ]> parameters)
     else mret parameters);
  let parameters :=
    if truthy offset then <[ "offset" := offset ]> parameters
    else parameters in
  route ← new_Route GET "/browse/categories/{id}/playlists" {[ "id" := VStr _id ]};
  request E route credentials (Some parameters) VNone.

(** CATEGORY API *)

Definition get_categories (country : value) (locale : value)
  (limit offset : value)
  (credentials : option loc) : M C value :=
  let parameters : gmap string value := ∅ in
  let parameters :=
    if truthy country then <[ "country" := country ]> parameters
    else parameters in
  let parameters :=
    if truthy locale then <[ "locale" := locale ]> parameters
    else parameters in
  parameters ←
    (if truthy limit then
       check (limit_value E "limit" limit 1 50);;
       mret (<[ "limit" := limit ]> parameters)
     else mret parameters);
  let parameters :=
    if truthy offset then <[ "offset" := offset ]> parameters
    else parameters in
  route ← new_Route GET "/browse/categories" ∅;
  request E route credentials (Some parameters) VNone.

(** PLAYER API *)

Definition get_recently_played_tracks (limit before after : value)
  (credentials : option loc) : M C value :=
  raise_if (truthy before && truthy after)
    (ValueError "'before' and 'after' can not both be specified.");;
  let parameters : gmap string value := ∅ in
  let parameters :=
    if truthy limit then <[ "limit" := limit ]> parameters
    else parameters in
  let parameters :=
    if truthy before then <[ "before" := before ]> parameters
    else parameters in
  let parameters :=
    if truthy after then <[ "after" := after ]> parameters
    else parameters in
  route ← new_Route GET "/me/player/recently-played" ∅;
  request E route credentials (Some parameters) VNone.

End Endpoints.

(** ** The endpoint methods as one table *)

Inductive Endpoint :=
| ep_get_albums | ep_get_album_tracks | ep_get_saved_albums | ep_save_albums
| ep_remove_albums | ep_check_saved_albums | ep_get_new_releases
| ep_get_artists | ep_get_artist_albums
| ep_get_shows | ep_get_show_episodes | ep_get_saved_shows | ep_save_shows
| ep_remove_shows | ep_check_saved_shows
| ep_get_episodes | ep_get_saved_episodes | ep_save_episodes
| ep_remove_episodes | ep_check_saved_episodes
| ep_get_tracks | ep_get_saved_tracks | ep_save_tracks | ep_remove_tracks
| ep_check_saved_tracks | ep_get_several_tracks_audio_features
| ep_get_recommendations
| ep_search
| ep_get_current_user_top_artists | ep_get_current_user_top_tracks
| ep_check_if_users_follow_playlists | ep_get_followed_artists
| ep_follow_users | ep_follow_artists | ep_unfollow_users
| ep_unfollow_artists | ep_check_followed_users | ep_check_followed_artists
| ep_get_playlist_items | ep_add_items_to_playlist
| ep_replace_playlist_items | ep_remove_items_from_playlist
| ep_get_current_user_playlists | ep_get_user_playlists
| ep_get_featured_playlists | ep_get_category_playlists
| ep_get_categories
| ep_get_recently_played_tracks.

(** The arguments of a call, by the name the methods give them; a method
    reads the ones in its signature.  [arg_id] is [_id] or [playlist_id];
    [arg_ids] is [ids], [user_ids] or [uris]. *)
Record Args := {
  arg_id : string;
  arg_ids : list string;
  arg_market : value;
  arg_country : value;
  arg_locale : value;
  arg_timestamp : value;
  arg_fields : value;
  arg_limit : value;
  arg_offset : value;
  arg_position : value;
  arg_snapshot_id : value;
  arg_before : value;
  arg_after : value;
  arg_include_groups : option (list EnumMember);
  arg_time_range : option EnumMember;
  arg_query : string;
  arg_search_types : list EnumMember;
  arg_include_external : bool;
  arg_seed_artist_ids : option (list string);
  arg_seed_genres : option (list string);
  arg_seed_track_ids : option (list string);
  arg_kwargs : list (string * value);
  arg_credentials : option loc
}.

Definition with_limit (limit : value) (a : Args) : Args :=
  {| arg_id := arg_id a; arg_ids := arg_ids a; arg_market := arg_market a;
     arg_country := arg_country a; arg_locale := arg_locale a;
     arg_timestamp := arg_timestamp a; arg_fields := arg_fields a;
     arg_limit := limit; arg_offset := arg_offset a;
     arg_position := arg_position a; arg_snapshot_id := arg_snapshot_id a;
     arg_before := arg_before a; arg_after := arg_after a;
     arg_include_groups := arg_include_groups a;
     arg_time_range := arg_time_range a; arg_query := arg_query a;
     arg_search_types := arg_search_types a;
     arg_include_external := arg_include_external a;
     arg_seed_artist_ids := arg_seed_artist_ids a;
     arg_seed_genres := arg_seed_genres a;
     arg_seed_track_ids := arg_seed_track_ids a;
     arg_kwargs := arg_kwargs a; arg_credentials := arg_credentials a |}.

Section Call.

Context {C : Type} (E : Env C).

Definition call (ep : Endpoint) (a : Args) : M C value :=
  let cr := arg_credentials a in
  match ep with
  | ep_get_albums => get_albums E (arg_ids a) (arg_market a) cr
  | ep_get_album_tracks =>
      get_album_tracks E (arg_id a) (arg_market a) (arg_limit a)
        (arg_offset a) cr
  | ep_get_saved_albums =>
      get_saved_albums E (arg_market a) (arg_limit a) (arg_offset a) cr
  | ep_save_albums => save_albums E (arg_ids a) cr
  | ep_remove_albums => remove_albums E (arg_ids a) cr
  | ep_check_saved_albums => check_saved_albums E (arg_ids a) cr
  | ep_get_new_releases =>
      get_new_releases E (arg_country a) (arg_limit a) (arg_offset a) cr
  | ep_get_artists => get_artists E (arg_ids a) (arg_market a) cr
  | ep_get_artist_albums =>
      get_artist_albums E (arg_id a) (arg_market a) (arg_limit a)
        (arg_offset a) (arg_include_groups a) cr
  | ep_get_shows => get_shows E (arg_ids a) (arg_market a) cr
  | ep_get_show_episodes =>
      get_show_episodes E (arg_id a) (arg_market a) (arg_limit a)
        (arg_offset a) cr
  | ep_get_saved_shows =>
      get_saved_shows E (arg_limit a) (arg_offset a) cr
  | ep_save_shows => save_shows E (arg_ids a) cr
  | ep_remove_shows => remove_shows E (arg_ids a) cr
  | ep_check_saved_shows => check_saved_shows E (arg_ids a) cr
  | ep_get_episodes => get_episodes E (arg_ids a) (arg_market a) cr
  | ep_get_saved_episodes =>
      get_saved_episodes E (arg_market a) (arg_limit a) (arg_offset a) cr
  | ep_save_episodes => save_episodes E (arg_ids a) cr
  | ep_remove_episodes => remove_episodes E (arg_ids a) cr
  | ep_check_saved_episodes => check_saved_episodes E (arg_ids a) cr
  | ep_get_tracks => get_tracks E (arg_ids a) (arg_market a) cr
  | ep_get_saved_tracks =>
      get_saved_tracks E (arg_market a) (arg_limit a) (arg_offset a) cr
  | ep_save_tracks => save_tracks E (arg_ids a) cr
  | ep_remove_tracks => remove_tracks E (arg_ids a) cr
  | ep_check_saved_tracks => check_saved_tracks E (arg_ids a) cr
  | ep_get_several_tracks_audio_features =>
      get_several_tracks_audio_features E (arg_ids a) cr
  | ep_get_recommendations =>
      get_recommendations E (arg_seed_artist_ids a) (arg_seed_genres a)
        (arg_seed_track_ids a) (arg_limit a) (arg_market a) cr
        (arg_kwargs a)
  | ep_search =>
      search E (arg_query a) (arg_search_types a) (arg_include_external a)
        (arg_market a) (arg_limit a) (arg_offset a) cr
  | ep_get_current_user_top_artists =>
      get_current_user_top_artists E (arg_limit a) (arg_offset a)
        (arg_time_range a) cr
  | ep_get_current_user_top_tracks =>
      get_current_user_top_tracks E (arg_limit a) (arg_offset a)
        (arg_time_range a) cr
  | ep_check_if_users_follow_playlists =>
      check_if_users_follow_playlists E (arg_id a) (arg_ids a) cr
  | ep_get_followed_artists =>
      get_followed_artists E (arg_limit a) (arg_offset a) cr
  | ep_follow_users => follow_users E (arg_ids a) cr
  | ep_follow_artists => follow_artists E (arg_ids a) cr
  | ep_unfollow_users => unfollow_users E (arg_ids a) cr
  | ep_unfollow_artists => unfollow_artists E (arg_ids a) cr
  | ep_check_followed_users => check_followed_users E (arg_ids a) cr
  | ep_check_followed_artists => check_followed_artists E (arg_ids a) cr
  | ep_get_playlist_items =>
      get_playlist_items E (arg_id a) (arg_market a) (arg_fields a)
        (arg_limit a) (arg_offset a) cr
  | ep_add_items_to_playlist =>
      add_items_to_playlist E (arg_id a) (arg_ids a) (arg_position a) cr
  | ep_replace_playlist_items =>
      replace_playlist_items E (arg_id a) (arg_ids a) cr
  | ep_remove_items_from_playlist =>
      remove_items_from_playlist E (arg_id a) (arg_ids a)
        (arg_snapshot_id a) cr
  | ep_get_current_user_playlists =>
      get_current_user_playlists E (arg_limit a) (arg_offset a) cr
  | ep_get_user_playlists =>
      get_user_playlists E (arg_id a) (arg_limit a) (arg_offset a) cr
  | ep_get_featured_playlists =>
      get_featured_playlists E (arg_country a) (arg_locale a)
        (arg_timestamp a) (arg_limit a) (arg_offset a) cr
  | ep_get_category_playlists =>
      get_category_playlists E (arg_id a) (arg_country a) (arg_limit a)
        (arg_offset a) cr
  | ep_get_categories =>
      get_categories E (arg_country a) (arg_locale a) (arg_limit a)
        (arg_offset a) cr
  | ep_get_recently_played_tracks =>
      get_recently_played_tracks E (arg_limit a) (arg_before a)
        (arg_after a) cr
  end.

End Call.

(** The maximum that a method's error message documents for its list
    argument (for [get_recommendations], for the seeds of its three lists
    together). *)
Definition max_entries (ep : Endpoint) : option nat :=
  match ep with
  | ep_get_albums => Some 20%nat
  | ep_save_albums | ep_remove_albums | ep_check_saved_albums
  | ep_get_artists
  | ep_get_shows | ep_save_shows | ep_remove_shows | ep_check_saved_shows
  | ep_get_episodes | ep_save_episodes | ep_remove_episodes
  | ep_check_saved_episodes
  | ep_get_tracks | ep_save_tracks | ep_remove_tracks | ep_check_saved_tracks
  | ep_follow_users | ep_follow_artists | ep_unfollow_users
  | ep_unfollow_artists | ep_check_followed_users
  | ep_check_followed_artists => Some 50%nat
  | ep_get_several_tracks_audio_features
  | ep_add_items_to_playlist | ep_replace_playlist_items
  | ep_remove_items_from_playlist => Some 100%nat
  | ep_check_if_users_follow_playlists | ep_get_recommendations => Some 5%nat
  | _ => None
  end.

Definition entry_count (ep : Endpoint) (a : Args) : nat :=
  match ep with
  | ep_get_recommendations =>
      count_seeds (arg_seed_artist_ids a) (arg_seed_genres a)
        (arg_seed_track_ids a)
  | _ => length (arg_ids a)
  end.

(** The methods that take an optional [limit]. *)
Definition has_limit (ep : Endpoint) : bool :=
  match ep with
  | ep_get_album_tracks | ep_get_saved_albums | ep_get_new_releases
  | ep_get_artist_albums | ep_get_show_episodes | ep_get_saved_shows
  | ep_get_saved_episodes | ep_get_saved_tracks | ep_get_recommendations
  | ep_search | ep_get_current_user_top_artists
  | ep_get_current_user_top_tracks | ep_get_followed_artists
  | ep_get_playlist_items | ep_get_current_user_playlists
  | ep_get_user_playlists | ep_get_featured_playlists
  | ep_get_category_playlists | ep_get_categories
  | ep_get_recently_played_tracks => true
  | _ => false
  end.

(** ** The other endpoint methods *)

(** All the remaining methods of [HTTPClient] but two:
    [get_followed_users], which only raises [exceptions.SpotifyException],
    and [upload_playlist_cover_image], which fetches the image through
    [self._session.get] first. *)

(** [isinstance(v, int)]; [bool] is a subclass of [int]. *)
Definition isinstance_int (v : value) : bool :=
  match v with
  | VInt _ | VBool _ => true
  | _ => false
  end.

Section OtherEndpoints.

Context {C : Type} (E : Env C).

(** [{"market": market} if market else None] *)
Definition market_only (market : value) : option (gmap string value) :=
  if truthy market then Some {[ "market" := market ]} else None.

(** [{"additional_types": "track"}], then the market if there is one. *)
Definition tracks_and_market (market : value) : gmap string value :=
  let parameters : gmap string value :=
    {[ "additional_types" := VStr "track" ]} in
  if truthy market then <[ "market" := market ]> parameters else parameters.

(** [parameters = {}], then the device if there is one. *)
Definition device_only (device_id : value) : gmap string value :=
  let parameters : gmap string value := ∅ in
  if truthy device_id then <[ "device_id" := device_id ]> parameters
  else parameters.

Definition get_album (_id : string) (market : value)
  (credentials : option loc) : M C value :=
  let parameters := market_only market in
  route ← new_Route E GET "/albums/{id}" {[ "id" := VStr _id ]};
  request E route credentials parameters VNone.

Definition get_artist (_id : string) (market : value)
  (credentials : option loc) : M C value :=
  let parameters := market_only market in
  route ← new_Route E GET "/artists/{id}" {[ "id" := VStr _id ]};
  request E route credentials parameters VNone.

Definition get_artist_top_tracks (_id : string) (market : string)
  (credentials : option loc) : M C value :=
  let parameters : gmap string value := {[ "market" := VStr market ]} in
  route ← new_Route E GET "/artists/{id}/top-tracks" {[ "id" := VStr _id ]};
  request E route credentials (Some parameters) VNone.

Definition get_related_artists (_id : string) (market : value)
  (credentials : option loc) : M C value :=
  let parameters := market_only market in
  route ← new_Route E GET "/artists/{id}/related-artists"
            {[ "id" := VStr _id ]};
  request E route credentials parameters VNone.

Definition get_show (_id : string) (market : value)
  (credentials : option loc) : M C value :=
  let parameters := market_only market in
  route ← new_Route E GET "/shows/{id}" {[ "id" := VStr _id ]};
  request E route credentials parameters VNone.

Definition get_episode (_id : string) (market : value)
  (credentials : option loc) : M C value :=
  let parameters := market_only market in
  route ← new_Route E GET "/episodes/{id}" {[ "id" := VStr _id ]};
  request E route credentials parameters VNone.

Definition get_track (_id : string) (market : value)
  (credentials : option loc) : M C value :=
  let parameters := market_only market in
  route ← new_Route E GET "/tracks/{id}" {[ "id" := VStr _id ]};
  request E route credentials parameters VNone.

Definition get_track_audio_features (_id : string)
  (credentials : option loc) : M C value :=
  route ← new_Route E GET "/audio-features/{id}" {[ "id" := VStr _id ]};
  request E route credentials None VNone.

Definition get_track_audio_analysis (_id : string)
  (credentials : option loc) : M C value :=
  route ← new_Route E GET "/audio-analysis/{id}" {[ "id" := VStr _id ]};
  request E route credentials None VNone.

Definition get_current_user_profile (credentials : option loc) : M C value :=
  route ← new_Route E GET "/me" ∅;
  request E route credentials None VNone.

Definition get_user_profile (_id : string)
  (credentials : option loc) : M C value :=
  route ← new_Route E GET "/users/{id}" {[ "id" := VStr _id ]};
  request E route credentials None VNone.

Definition follow_playlist (_id : string) (public : value)
  (credentials : option loc) : M C value :=
  let data :=
    if truthy public then VDict {[ "public" := public ]} else VNone in
  route ← new_Route E PUT "playlists/{id}/followers" {[ "id" := VStr _id ]};
  request E route credentials None data.

Definition unfollow_playlist (_id : string)
  (credentials : option loc) : M C value :=
  route ← new_Route E DELETE "playlists/{id}/followers"
            {[ "id" := VStr _id ]};
  request E route credentials None VNone.

Definition get_playlist (_id : string) (market fields : value)
  (credentials : option loc) : M C value :=
  let parameters : gmap string value :=
    {[ "additional_types" := VStr "track" ]} in
  let parameters :=
    if truthy market then <[ "market" := market ]> parameters
    else parameters in
  let parameters :=
    if truthy fields then <[ "fields" := fields ]> parameters
    else parameters in
  route ← new_Route E GET "/playlists/{id}" {[ "id" := VStr _id ]};
  request E route credentials (Some parameters) VNone.

Definition change_playlist_details (_id : string)
  (name public collaborative description : value)
  (credentials : option loc) : M C value :=
  raise_if (truthy collaborative && truthy public)
    (ValueError "collaborative playlists can not be public.");;
  let data : gmap string value := ∅ in
  let data := if truthy name then <[ "name" := name ]> data else data in
  let data := if truthy public then <[ "public" := public ]> data else data in
  let data :=
    if truthy collaborative then <[ "collaborative" := collaborative ]> data
    else data in
  let data :=
    if truthy description then <[ "description" := description ]> data
    else data in
  route ← new_Route E PUT "/playlists/{id}" {[ "id" := VStr _id ]};
  request E route credentials None (VDict data).

Definition reorder_playlist_items (_id : string)
  (range_start insert_before : Z) (range_length snapshot_id : value)
  (credentials : option loc) : M C value :=
  let data : gmap string value :=
    {[ "range_start" := VInt range_start;
       "insert_before" := VInt insert_before ]} in
  let data :=
    if truthy range_length then <[ "range_length" := range_length ]> data
    else data in
  let data :=
    if truthy snapshot_id then <[ "snapshot_id" := snapshot_id ]> data
    else data in
  route ← new_Route E PUT "/playlists/{id}/tracks" {[ "id" := VStr _id ]};
  request E route credentials None (VDict data).

Definition create_playlist (user_id name : string)
  (public collaborative description : value)
  (credentials : option loc) : M C value :=
  raise_if (truthy collaborative && truthy public)
    (ValueError "collaborative playlists can not be public.");;
  let data : gmap string value := {[ "name" := VStr name ]} in
  let data := if truthy public then <[ "public" := public ]> data else data in
  let data :=
    if truthy collaborative then <[ "collaborative" := collaborative ]> data
    else data in
  let data :=
    if truthy description then <[ "description" := description ]> data
    else data in
  route ← new_Route E POST "/users/{user_id}/playlists"
            {[ "user_id" := VStr user_id ]};
  request E route credentials None (VDict data).

Definition get_playlist_cover_image (_id : string)
  (credentials : option loc) : M C value :=
  route ← new_Route E GET "/playlists/{id}/images" {[ "id" := VStr _id ]};
  request E route credentials None VNone.

Definition get_category (_id : string) (country locale : value)
  (credentials : option loc) : M C value :=
  let parameters : gmap string value := ∅ in
  let parameters :=
    if truthy country then <[ "country" := country ]> parameters
    else parameters in
  let parameters :=
    if truthy locale then <[ "locale" := locale ]> parameters
    else parameters in
  route ← new_Route E GET "/browse/categories/{id}" {[ "id" := VStr _id ]};
  request E route credentials (Some parameters) VNone.

Definition get_available_genre_seeds (credentials : option loc)
  : M C value :=
  route ← new_Route E GET "/recommendations/available-genre-seeds" ∅;
  request E route credentials None VNone.

(** PLAYER API *)

Definition get_playback_state (market : value)
  (credentials : option loc) : M C value :=
  let parameters := tracks_and_market market in
  route ← new_Route E GET "/me/player" ∅;
  request E route credentials (Some parameters) VNone.

Definition transfer_playback (device_id : string) (ensure_playback : value)
  (credentials : option loc) : M C value :=
  let data : gmap string value :=
    {[ "device_ids" := VList [VStr device_id] ]} in
  let data :=
    if truthy ensure_playback then <[ "play" := ensure_playback ]> data
    else data in
  route ← new_Route E PUT "/me/player" ∅;
  request E route credentials None (VDict data).

Definition get_available_devices (credentials : option loc) : M C value :=
  route ← new_Route E GET "/me/player/devices" ∅;
  request E route credentials None VNone.

Definition get_currently_playing_track (market : value)
  (credentials : option loc) : M C value :=
  let parameters := tracks_and_market market in
  route ← new_Route E GET "/me/player/currently-playing" ∅;
  request E route credentials (Some parameters) VNone.

Definition start_playback (device_id context_uri : value)
  (uris : option (list string)) (offset position_ms : value)
  (credentials : option loc) : M C value :=
  raise_if (truthy context_uri && truthy_list uris)
    (ValueError "'context_uri' and 'uris' can not both be specified.");;
  let parameters := device_only device_id in
  let data : gmap string value := ∅ in
  let data :=
    if truthy context_uri || truthy_list uris then
      let data :=
        if truthy context_uri then <[ "context_uri" := context_uri ]> data
        else data in
      let data :=
        if truthy_list uris
        then <[ "uris" := VList (VStr <$> default [] uris) ]> data
        else data in
      let data :=
        if truthy offset then
          <[ "offset" :=
               VDict (if isinstance_int offset
                      then {[ "position" := offset ]}
                      else {[ "uri" := offset ]}) ]> data
        else data in
      if truthy position_ms then <[ "position_ms" := position_ms ]> data
      else data
    else data in
  route ← new_Route E PUT "/me/player/play" ∅;
  request E route credentials (Some parameters) (VDict data).

Definition resume_playback (device_id offset position_ms : value)
  (credentials : option loc) : M C value :=
  start_playback device_id VNone None offset position_ms credentials.

Definition pause_playback (device_id : value)
  (credentials : option loc) : M C value :=
  let parameters := device_only device_id in
  route ← new_Route E PUT "/me/player/pause" ∅;
  request E route credentials (Some parameters) VNone.

Definition skip_to_next (device_id : value)
  (credentials : option loc) : M C value :=
  let parameters := device_only device_id in
  route ← new_Route E POST "/me/player/next" ∅;
  request E route credentials (Some parameters) VNone.

Definition skip_to_previous (device_id : value)
  (credentials : option loc) : M C value :=
  let parameters := device_only device_id in
  route ← new_Route E POST "/me/player/previous" ∅;
  request E route credentials (Some parameters) VNone.

Definition seek_to_position (position_ms : Z) (device_id : value)
  (credentials : option loc) : M C value :=
  let parameters : gmap string value :=
    {[ "position_ms" := VInt position_ms ]} in
  let parameters :=
    if truthy device_id then <[ "device_id" := device_id ]> parameters
    else parameters in
  route ← new_Route E PUT "/me/player/seek" ∅;
  request E route credentials (Some parameters) VNone.

Definition set_repeat_mode (repeat_mode : EnumMember) (device_id : value)
  (credentials : option loc) : M C value :=
  let parameters : gmap string value :=
    {[ "state" := VStr (enum_value repeat_mode) ]} in
  let parameters :=
    if truthy device_id then <[ "device_id" := device_id ]> parameters
    else parameters in
  route ← new_Route E PUT "/me/player/repeat" ∅;
  request E route credentials (Some parameters) VNone.

Definition set_playback_volume (volume_percent : Z) (device_id : value)
  (credentials : option loc) : M C value :=
  check (limit_value E "volume_percent" (VInt volume_percent) 0 100);;
  let parameters : gmap string value :=
    {[ "volume_percent" := VInt volume_percent ]} in
  let parameters :=
    if truthy device_id then <[ "device_id" := device_id ]> parameters
    else parameters in
  route ← new_Route E PUT "/me/player/volume" ∅;
  request E route credentials (Some parameters) VNone.

Definition toggle_playback_shuffle (state : bool) (device_id : value)
  (credentials : option loc) : M C value :=
  let parameters : gmap string value :=
    {[ "state" := VStr (if state then "true" else "false") ]} in
  let parameters :=
    if truthy device_id then <[ "device_id" := device_id ]> parameters
    else parameters in
  route ← new_Route E PUT "/me/player/shuffle" ∅;
  request E route credentials (Some parameters) VNone.

Definition add_item_to_playback_queue (uri : string) (device_id : value)
  (credentials : option loc) : M C value :=
  let parameters : gmap string value := {[ "uri" := VStr uri ]} in
  let parameters :=
    if truthy device_id then <[ "device_id" := device_id ]> parameters
    else parameters in
  route ← new_Route E POST "/me/player/queue" ∅;
  request E route credentials (Some parameters) VNone.

(** MARKETS API *)

Definition get_available_markets (credentials : option loc) : M C value :=
  route ← new_Route E GET "/markets" ∅;
  request E route credentials None VNone.

End OtherEndpoints.

(** ** Vocabulary of the statements *)

(** A path template seen as what its author means by it: literal text and
    placeholders. *)
Inductive segment :=
| Literal (text : string)
| Placeholder (name : string).

(** Literal text as it is written in a format string, braces doubled. *)
Fixpoint escape (s : string) : string :=
  match s with
  | EmptyString => EmptyString
  | String c s' =>
      if Ascii.eqb c "{" then String "{" (String "{" (escape s'))
      else if Ascii.eqb c "}" then String "}" (String "}" (escape s'))
      else String c (escape s')
  end.

Definition segment_text (seg : segment) : string :=
  match seg with
  | Literal text => escape text
  | Placeholder name => "{" ++ name ++ "}"
  end.

Fixpoint template (segs : list segment) : string :=
  match segs with
  | [] => ""
  | seg :: segs' => segment_text seg ++ template segs'
  end.

(** A placeholder name that is a plain key: ASCII, without braces,
    attribute or index access, conversion or format specification, and not
    a number (nor empty). *)
Fixpoint plain_chars (s : string) : bool :=
  match s with
  | EmptyString => true
  | String c s' =>
      pystr.plain_field_char c && negb (Ascii.eqb c "{")
      && negb (Ascii.eqb c "}") && plain_chars s'
  end.

Definition plain_name (name : string) : bool :=
  plain_chars name && negb (pystr.all_digits name).

Definition well_formed (seg : segment) : Prop :=
  match seg with
  | Literal _ => True
  | Placeholder name => plain_name name = true
  end.

(** What stands for a placeholder value in the url: a text value
    percent-encoded, any other value as [str] gives it. *)
Definition inserted (py_str : value -> string) (v : value) : string :=
  match v with
  | VStr s => urllib.quote s
  | _ => py_str v
  end.

Fixpoint render (py_str : value -> string) (parameters : gmap string value)
  (segs : list segment) : string :=
  match segs with
  | [] => ""
  | Literal text :: segs' => text ++ render py_str parameters segs'
  | Placeholder name :: segs' =>
      match parameters !! name with
      | Some v => inserted py_str v
      | None => ""
      end ++ render py_str parameters segs'
  end.

(** The first placeholder of the template that the map has no value for. *)
Fixpoint first_absent (parameters : gmap string value) (segs : list segment)
  : option string :=
  match segs with
  | [] => None
  | Literal _ :: segs' => first_absent parameters segs'
  | Placeholder name :: segs' =>
      match parameters !! name with
      | Some _ => first_absent parameters segs'
      | None => Some name
      end
  end.

(** The world after [n] more exchanges and the events [evs]. *)
Definition advance {C} (w : World C) (n : nat) (evs : list Event) : World C :=
  {| self := self w; heap := heap w; next_loc := next_loc w;
     exchanges := n + exchanges w; trace := trace w ++ evs |}.

(** The event that one attempt of [request] leaves in the trace. *)
Definition attempt_event {C} (E : Env C) (route : Route)
  (request_headers : gmap string string)
  (parameters : option (gmap string value)) (data : value) : Event :=
  SessionRequest (method route) (url route) request_headers parameters
    (if truthy data then Some (json_dumps E data) else None).

Definition is_attempt (ev : Event) : bool :=
  match ev with
  | SessionRequest _ _ _ _ _ => true
  | _ => false
  end.

(** The headers that [request] builds from a credentials object. *)
Definition authorization {C} (E : Env C) (s : C) : gmap string string :=
  {[ "Content-Type" := "application/json";
     "Authorization" := "Bearer " ++ access_token E s ]}.

(** The credentials that a call works with: the caller's if there are any,
    else the client's own. *)
Definition effective (credentials : option loc) (c : HTTPClient) (l : loc)
  : Prop :=
  match credentials with
  | Some l' => l = l'
  | None => _client_credentials c = Some l
  end.

(** Asking the credentials [l] whether they are expired, with the answer
    [b], and what follows from the answer. *)
Definition expiry_check (l : loc) (b : bool) : list Event :=
  IsExpired l b :: (if b then [Refresh l] else []).

(** The state in which a call of [_get_credentials] that starts in [w]
    finds the credentials object [l]: the state the object has in [w], or,
    for the client's own credentials when the call has to create them,
    the state that [from_client_secret] gives them. *)
Definition found {C} (E : Env C) (w : World C) (l : loc) : C :=
  match _client_credentials (self w),
        from_client_secret E (_client_id (self w)) (_client_secret (self w))
  with
  | None, inr s => if Nat.eqb l (next_loc w) then s else heap w l
  | _, _ => heap w l
  end.

(** The state of a credentials object after the expiry check: what
    [refresh] has made of it when it reported itself expired, else the
    state it was found in. *)
Definition checked {C} (E : Env C) (s : C) : C :=
  if is_expired E s then (refresh E s).1 else s.

(** The exception that the expiry check of an object in state [s] ends in,
    if any: the one that [refresh] raises, when the object reported itself
    expired. *)
Definition refresh_failure {C} (E : Env C) (s : C) : option exn :=
  if is_expired E s then (refresh E s).2 else None.

(** An event of the creation of the client's own credentials. *)
Definition creation_event (ev : Event) : Prop :=
  ∃ client_id client_secret, ev = FromClientSecret client_id client_secret.

(** The events of the loop of one request: attempts, all alike, and
    sleeps. *)
Definition loop_event (sent : Event) (ev : Event) : Prop :=
  ev = sent ∨ ∃ d, ev = Sleep d.

(** An event that is not an exchange sending a [limit] query parameter. *)
Definition no_limit_parameter (ev : Event) : Prop :=
  match ev with
  | SessionRequest _ _ _ (Some parameters) _ => parameters !! "limit" = None
  | _ => True
  end.

(** A call whose exchanges, if any, send no [limit]. *)
Definition sends_no_limit {C} (m : M C value) : Prop :=
  ∀ w, ∃ evs, trace (m w).2 = (trace w ++ evs)%list
              ∧ Forall no_limit_parameter evs.

(** The same collaborators, with another [utils.limit_value]. *)
Definition with_limit_value {C}
  (check : string -> value -> Z -> Z -> option exn) (E : Env C) : Env C :=
  {| py_str := py_str E; float_parses := float_parses E;
     json_dumps := json_dumps E; EXCEPTION_MAPPING := EXCEPTION_MAPPING E;
     VALID_SEED_KWARGS := VALID_SEED_KWARGS E; limit_value := check;
     is_expired := is_expired E; access_token := access_token E;
     refresh := refresh E; from_client_secret := from_client_secret E;
     transport := transport E |}.

(** The [n]-th exchange is answered 429 with a [Retry-After] header that
    [float] accepts. *)
Definition rate_limited_at {C} (E : Env C) (n : nat) (text : string) : Prop :=
  ∃ r d, transport E n = Responded r d ∧ status r = 429
         ∧ headers_getitem (headers r) "Retry-After" = Some text
         ∧ float_parses E text = true.

Definition transient_status (s : Z) : Prop := s = 500 ∨ s = 502 ∨ s = 503.

Definition success_status (s : Z) : Prop := 200 <= s < 300.

(** The statuses that [request] treats before it looks at the body. *)
Definition special_status (s : Z) : Prop :=
  success_status s ∨ s = 413 ∨ s = 429 ∨ transient_status s.

(** The payload that [request] makes up for status 413. *)
Definition too_large_payload : value :=
  VDict {[ "status" := VInt 413;
           "message" := VStr "Request entity too large." ]}.

(** ** Further vocabulary *)

(** The whole seconds of the backoff sleeps of a trace, in order. *)
Definition backoffs (evs : list Event) : list Z :=
  omap (λ ev, match ev with Sleep (Seconds n) => Some n | _ => None end) evs.

(** The number of exchanges attempted in a trace. *)
Definition attempts_in (evs : list Event) : nat :=
  length (List.filter is_attempt evs).

(** The exceptions that the [except OSError] clause retries. *)
Definition recoverable (e : exn) : Prop :=
  match e with
  | OSError (Some errno) => errno = 54 ∨ errno = 10054
  | _ => False
  end.

(** The response is an error that [request] decides by the body. *)
Definition ordinary_error (o : Outcome) (r : Response) (d : value) : Prop :=
  o = Responded r d ∧ ¬ special_status (status r).

(** The url that an attempt goes to. *)
Definition sent_to (u : string) (ev : Event) : Prop :=
  match ev with
  | SessionRequest _ u' _ _ _ => u' = u
  | _ => True
  end.

(** The query parameters that an attempt carries. *)
Definition carries (parameters : option (gmap string value)) (ev : Event)
  : Prop :=
  match ev with
  | SessionRequest _ _ _ parameters' _ => parameters' = parameters
  | _ => True
  end.

(** An attempt without a body. *)
Definition bodiless (ev : Event) : Prop :=
  match ev with
  | SessionRequest _ _ _ _ body => body = None
  | _ => True
  end.



(** The range that a method checks its [limit] against, if it does. *)
Definition limit_range (ep : Endpoint) : option (Z * Z) :=
  match ep with
  | ep_get_album_tracks | ep_get_saved_albums | ep_get_new_releases
  | ep_get_artist_albums | ep_get_show_episodes | ep_get_saved_shows
  | ep_get_saved_episodes | ep_get_saved_tracks | ep_search
  | ep_get_current_user_top_artists | ep_get_current_user_top_tracks
  | ep_get_followed_artists | ep_get_current_user_playlists
  | ep_get_user_playlists | ep_get_featured_playlists
  | ep_get_category_playlists | ep_get_categories => Some (1, 50)
  | ep_get_recommendations | ep_get_playlist_items => Some (1, 100)
  | _ => None
  end.

(** The first extra keyword argument that [values.VALID_SEED_KWARGS] does
    not list. *)
Fixpoint first_invalid_kwarg (valid : list string)
  (kwargs : list (string * value)) : option string :=
  match kwargs with
  | [] => None
  | (key, _) :: kwargs' =>
      if existsb (String.eqb key) valid then first_invalid_kwarg valid kwargs'
      else Some key
  end.

(** A call all of whose events, in every world, satisfy [P]. *)
Definition events_all {C} (P : Event -> Prop) (m : M C value) : Prop :=
  ∀ w, ∃ evs, trace (m w).2 = (trace w ++ evs)%list ∧ Forall P evs.

(** The parameters that [get_recommendations] has when its loop over the
    extra keyword arguments is through. *)
Definition with_kwargs (kwargs : list (string * value))
  (parameters : gmap string value) : gmap string value :=
  foldl (λ parameters kv, <[ kv.1 := kv.2 ]> parameters) parameters kwargs.

(** ** A concrete client, for examples *)

Module Scenario.

(** Modelled from the spec: [values.EXCEPTION_MAPPING] is not part of
    [http.py]; section 7 of the specification gives these entries of the
    status-to-kind table. *)
Definition spec_EXCEPTION_MAPPING : gmap Z string :=
  {[ 400 := "BadRequest"; 401 := "Unauthorized"; 403 := "Forbidden";
     404 := "NotFound" ]}.

(** Modelled from the spec: [utils.limit_value] is not part of [http.py];
    an out-of-range numeric parameter is a validation error. *)
Definition spec_limit_value (name : string) (v : value) (minimum maximum : Z)
  : option exn :=
  match v with
  | VInt n =>
      if (n <? minimum) || (maximum <? n)
      then Some (ValueError ("'" ++ name ++ "' is out of range."))
      else None
  | _ => Some TypeError
  end.

Fixpoint decimal_text (s : string) : bool :=
  match s with
  | EmptyString => true
  | String c s' =>
      (urllib.in_range "0" "9" c || Ascii.eqb c ".") && decimal_text s'
  end.

Definition str_of (v : value) : string :=
  match v with
  | VNone => "None"
  | VBool true => "True"
  | VBool false => "False"
  | VInt n => pretty n
  | VStr s => s
  | _ => "<object>"
  end.

(** A credentials object here is its token and whether it has expired;
    refreshing gives a new token that has not. *)
Definition env (t : nat -> Outcome) : Env (string * bool) := {|
  py_str := str_of;
  float_parses := λ s, negb (String.eqb s "") && decimal_text s;
  json_dumps := str_of;
  EXCEPTION_MAPPING := spec_EXCEPTION_MAPPING;
  VALID_SEED_KWARGS := ["min_tempo"; "max_tempo"; "target_tempo"];
  limit_value := spec_limit_value;
  is_expired := snd;
  access_token := fst;
  refresh := λ s, ((fst s ++ "+", false), None);
  from_client_secret := λ _ _, inr ("app", false);
  transport := t
|}.

Definition client : HTTPClient :=
  {| _client_id := "id"; _client_secret := "secret";
     _session := None; _client_credentials := None |}.

(** A fresh client; location 0 holds a user's expired credentials. *)
Definition world : World (string * bool) :=
  {| self := client;
     heap := λ l, if Nat.eqb l 0 then ("user", true) else ("", false);
     next_loc := 1%nat; exchanges := 0%nat; trace := [] |}.

Definition me : Route :=
  {| method := GET; path := "/me"; url := BASE_URL ++ "/me" |}.

(** The headers that [request] builds for a token. *)
Definition bearer (token : string) : gmap string string :=
  {[ "Content-Type" := "application/json";
     "Authorization" := "Bearer " ++ token ]}.

(** What one attempt of a parameterless [GET /me] leaves in the trace. *)
Definition get_me (token : string) : Event :=
  SessionRequest GET (BASE_URL ++ "/me") (bearer token) None None.

Definition answer (s : Z) (hs : list (string * string)) (body : value)
  : Outcome :=
  Responded {| status := s; headers := hs |} body.

Definition error_body (message : string) : value :=
  VDict {[ "error" := VDict {[ "message" := VStr message ]} ]}.

Definition unavailable : Outcome :=
  answer 503 [] (error_body "service unavailable").

Definition slow_down : Outcome :=
  answer 429 [("Retry-After", "0.01")] (error_body "rate limited").

Definition ok : Outcome := answer 200 [] (VDict {[ "id" := VStr "me" ]}).

Definition not_found : Outcome := answer 404 [] (error_body "not found").

(** A 404 whose [error] entry is an empty object. *)
Definition empty_error : Outcome :=
  answer 404 [] (VDict {[ "error" := VDict ∅ ]}).

Definition too_large : Outcome := answer 413 [] (VStr "<html>413</html>").

Definition reset : Outcome := Raised (OSError (Some 54)).

(** The first [n] exchanges end with [o], the later ones with [o']. *)
Definition first_then (n : nat) (o o' : Outcome) : nat -> Outcome :=
  λ i, if (i <? n)%nat then o else o'.

(** The world in which the loop of [request] starts, for a call without
    caller credentials on the fresh client. *)
Definition prepared (t : nat -> Outcome) : World (string * bool) :=
  (prepare (env t) None world).2.

(** Such a call, with no parameters and no body. *)
Definition get (t : nat -> Outcome) : result value * World (string * bool) :=
  request (env t) me None None VNone world.

(** A call with the list [ids], the given [limit] and nothing else. *)
Definition args (ids : list string) (limit : value) : Args :=
  {| arg_id := "4aawyAB9vmqN3uQ7FjRGTy"; arg_ids := ids;
     arg_market := VNone; arg_country := VNone; arg_locale := VNone;
     arg_timestamp := VNone; arg_fields := VNone; arg_limit := limit;
     arg_offset := VNone; arg_position := VNone; arg_snapshot_id := VNone;
     arg_before := VNone; arg_after := VNone; arg_include_groups := None;
     arg_time_range := None; arg_query := ""; arg_search_types := [];
     arg_include_external := false; arg_seed_artist_ids := None;
     arg_seed_genres := None; arg_seed_track_ids := None;
     arg_kwargs := []; arg_credentials := None |}.

(** The path of an album's tracks, and the arguments of a route to it. *)
Definition album_tracks : list segment :=
  [Literal "/albums/"; Placeholder "id"; Literal "/tracks/";
   Placeholder "page"].

Definition album_arguments : gmap string value :=
  {[ "id" := VStr "4 u"; "page" := VInt 2 ]}.

(** More answers of the transport. *)
Definition refused : Outcome := Raised (OSError (Some 111)).

Definition limited_without_header : Outcome :=
  answer 429 [] (error_body "rate limited").

Definition limited_until_date : Outcome :=
  answer 429 [("Retry-After", "Wed, 21 Oct 2026 07:28:00 GMT")]
    (error_body "rate limited").

Definition not_found_page : Outcome :=
  answer 404 [] (VStr "<html>Not Found</html>").

Definition teapot : Outcome := answer 418 [] (error_body "teapot").

Definition unavailable_page : Outcome :=
  answer 503 [] (VStr "<html>Service Unavailable</html>").

Definition bare_not_found : Outcome := answer 404 [] (VDict ∅).

(** The same collaborators, but the application's identity is refused. *)
Definition env_refusing_client (t : nat -> Outcome) : Env (string * bool) :=
  {| py_str := str_of;
     float_parses := λ s, negb (String.eqb s "") && decimal_text s;
     json_dumps := str_of;
     EXCEPTION_MAPPING := spec_EXCEPTION_MAPPING;
     VALID_SEED_KWARGS := ["min_tempo"; "max_tempo"; "target_tempo"];
     limit_value := spec_limit_value;
     is_expired := snd;
     access_token := fst;
     refresh := λ s, ((fst s ++ "+", false), None);
     from_client_secret := λ _ _, inl (CredentialsError "invalid_client");
     transport := t |}.

(** The [asyncio.sleep] calls of a trace. *)
Definition sleeps (t : list Event) : list delay :=
  omap (λ ev, match ev with Sleep d => Some d | _ => None end) t.

(** The number of exchanges attempted in a trace. *)
Definition attempts_made (t : list Event) : nat :=
  length (List.filter is_attempt t).

End Scenario.

(** * Properties *)

#[local] Arguments advance : simpl never.
#[local] Arguments emit : simpl never.
#[local] Arguments sleep : simpl never.

(** ** Route *)

Section RouteProperties.

Variable py_str : value -> string.

#[local] Arguments String.append : simpl nomatch.

Lemma append_assoc (a b c : string) : ((a ++ b) ++ c = a ++ b ++ c)%string.
Proof. induction a as [|x a IH]; simpl; [done | by rewrite IH]. Qed.

Lemma append_nil_r (a : string) : (a ++ "")%string = a.
Proof. induction a as [|x a IH]; simpl; [done | by rewrite IH]. Qed.

(** C10: with no placeholder arguments nothing is substituted; whatever
    the path is, braces included, construction succeeds and the url is
    the base url followed by the path as it stands. *)
Theorem C10_route_without_arguments_is_verbatim method path :
  Route_init py_str method path ∅
  = inr {| method := method; path := path; url := BASE_URL ++ path |}.
Proof. reflexivity. Qed.

(** Scanning literal text copies it. *)
Lemma format_scan_literal mapping text rest out :
  pystr.format_scan py_str mapping (escape text ++ rest) pystr.Text out
  = pystr.format_scan py_str mapping rest pystr.Text (out ++ text).
Proof.
  revert out. induction text as [|c text IH]; intros out; simpl.
  - by rewrite append_nil_r.
  - destruct (Ascii.eqb_spec c "{") as [->|Hopen]; simpl.
    { rewrite IH. by rewrite append_assoc. }
    destruct (Ascii.eqb_spec c "}") as [->|Hclose]; simpl.
    { rewrite IH. by rewrite append_assoc. }
    destruct (Ascii.eqb_spec c "{"); [done|].
    destruct (Ascii.eqb_spec c "}"); [done|].
    rewrite IH. by rewrite append_assoc.
Qed.

(** Scanning a plain field name up to its closing brace looks the name
    up. *)
Lemma format_scan_name mapping name acc rest out :
  plain_chars name = true ->
  pystr.format_scan py_str mapping (name ++ String "}" rest)
    (pystr.Field acc) out
  = match pystr.get_field py_str mapping (acc ++ name) with
    | inl e => inl e
    | inr text => pystr.format_scan py_str mapping rest pystr.Text
                    (out ++ text)
    end.
Proof.
  revert acc. induction name as [|c name IH]; intros acc Hn; simpl.
  - by rewrite append_nil_r.
  - simpl in Hn. apply andb_prop in Hn as [Hn Hrest].
    apply andb_prop in Hn as [Hn Hclose]. apply andb_prop in Hn as [Hp Hopen].
    apply negb_true_iff in Hopen, Hclose.
    rewrite Hclose, Hopen, Hp, (IH _ Hrest), append_assoc. reflexivity.
Qed.

Lemma get_field_plain (parameters : gmap string value) name :
  plain_name name = true ->
  pystr.get_field py_str (quote_if_str <$> parameters) name
  = match parameters !! name with
    | Some v => inr (inserted py_str v)
    | None => inl (KeyError (VStr name))
    end.
Proof.
  intros Hn. apply andb_prop in Hn as [_ Hd%negb_true_iff].
  unfold pystr.get_field, pystr.is_positional. rewrite Hd, lookup_fmap.
  destruct (parameters !! name) as [[]|]; reflexivity.
Qed.

Lemma format_scan_open mapping c rest out :
  Ascii.eqb c "{" = false ->
  pystr.format_scan py_str mapping (String "{" (String c rest)) pystr.Text
    out
  = pystr.format_scan py_str mapping (String c rest) (pystr.Field "") out.
Proof. intros H. simpl. by rewrite H. Qed.

Lemma format_scan_placeholder (parameters : gmap string value) name rest out :
  plain_name name = true ->
  pystr.format_scan py_str (quote_if_str <$> parameters)
    (segment_text (Placeholder name) ++ rest) pystr.Text out
  = match parameters !! name with
    | Some v =>
        pystr.format_scan py_str (quote_if_str <$> parameters) rest
          pystr.Text (out ++ inserted py_str v)
    | None => inl (KeyError (VStr name))
    end.
Proof.
  intros Hn. pose proof Hn as Hn'.
  apply andb_prop in Hn' as [Hc Hd%negb_true_iff].
  destruct name as [|c name]; [discriminate|].
  assert ((segment_text (Placeholder (String c name)) ++ rest)%string
          = String "{" (String c (name ++ String "}" rest)%string)) as ->.
  { unfold segment_text. simpl. by rewrite append_assoc. }
  pose proof Hc as Hc'. simpl in Hc'.
  apply andb_prop in Hc' as [Hc' _]. apply andb_prop in Hc' as [Hc' _].
  apply andb_prop in Hc' as [_ Hopen%negb_true_iff].
  rewrite (format_scan_open _ _ _ _ Hopen).
  change (String c (name ++ String "}" rest))%string
    with (String c name ++ String "}" rest)%string.
  rewrite (format_scan_name _ _ _ _ _ Hc).
  change ("" ++ String c name)%string with (String c name).
  rewrite (get_field_plain _ _ Hn).
  destruct (parameters !! String c name); reflexivity.
Qed.

Lemma format_scan_template (parameters : gmap string value) segs out :
  Forall well_formed segs ->
  pystr.format_scan py_str (quote_if_str <$> parameters) (template segs)
    pystr.Text out
  = match first_absent parameters segs with
    | None => inr (out ++ render py_str parameters segs)
    | Some name => inl (KeyError (VStr name))
    end.
Proof.
  intros Hwf. revert out.
  induction Hwf as [|[text|name] segs Hseg _ IH]; intros out.
  - simpl. by rewrite append_nil_r.
  - simpl template. rewrite format_scan_literal, IH. simpl.
    destruct (first_absent parameters segs); [done|].
    by rewrite append_assoc.
  - change (template (Placeholder name :: segs))
      with (segment_text (Placeholder name) ++ template segs)%string.
    rewrite (format_scan_placeholder _ _ _ _ Hseg). simpl.
    destruct (parameters !! name) as [v|]; [|done].
    rewrite IH. destruct (first_absent parameters segs); [done|].
    by rewrite append_assoc.
Qed.

Lemma first_absent_None (parameters : gmap string value) segs :
  first_absent parameters segs = None
  ↔ ∀ name, Placeholder name ∈ segs -> is_Some (parameters !! name).
Proof.
  induction segs as [|[text|name] segs IH]; simpl.
  - split; [|done]. intros _ name Hin. by apply elem_of_nil in Hin.
  - rewrite IH. split; intros H name Hin.
    + apply elem_of_cons in Hin as [[=]|Hin]. by apply H.
    + apply H. by right.
  - destruct (parameters !! name) as [v|] eqn:Hv.
    + rewrite IH. split; intros H name' Hin.
      * apply elem_of_cons in Hin as [[= ->]|Hin]; [by rewrite Hv|].
        by apply H.
      * apply H. by right.
    + split; [done|]. intros H.
      destruct (H name ltac:(by left)) as [v Hv']. congruence.
Qed.

(** C7, as the code has it: for a path template made of literal text
    (braces doubled) and placeholders with plain names, and a non-empty
    placeholder map whose text values are texts that UTF-8 can encode (as
    every [VStr] is), the url is the base url followed by the template
    with each placeholder replaced by its value, a text value
    percent-encoded by [urllib.parse.quote] and any other value as
    [str] gives it; construction fails, with the [KeyError] of
    [format_map] for the first such name, exactly when the map has no
    value for some placeholder of the template.  Nothing is said of a
    template of another form. *)
Theorem C7_route_substitution method segs (parameters : gmap string value) :
  parameters ≠ ∅ ->
  Forall well_formed segs ->
  Route_init py_str method (template segs) parameters
  = match first_absent parameters segs with
    | None =>
        inr {| method := method; path := template segs;
               url := BASE_URL ++ render py_str parameters segs |}
    | Some name => inl (KeyError (VStr name))
    end
  ∧ (first_absent parameters segs = None
     ↔ ∀ name, Placeholder name ∈ segs -> is_Some (parameters !! name)).
Proof.
  intros Hne Hwf. split; [|apply first_absent_None].
  unfold Route_init.
  destruct (size parameters) as [|n] eqn:Hsize.
  { by apply map_size_empty_iff in Hsize. }
  simpl negb. cbv iota. unfold pystr.format_map.
  change (BASE_URL ++ template segs)%string
    with (template (Literal BASE_URL :: segs)).
  rewrite format_scan_template by (by constructor).
  simpl. destruct (first_absent parameters segs); reflexivity.
Qed.

End RouteProperties.

(** ** What is inserted for a text *)

Section Inserted.




End Inserted.

(** ** The retry loop, one iteration at a time *)

Section Iteration.

Context {C : Type} (E : Env C).
Variables (route : Route) (hdrs : gmap string string)
  (params : option (gmap string value)) (data : value).

Let sent := attempt_event E route hdrs params data.
Let iteration_of (tries : Z) (locals : option (Response * value)) :=
  try_except (try_body E route hdrs params data tries locals)
    (except_OSError tries locals).

Lemma advance_advance (w : World C) n1 n2 evs1 evs2 :
  advance (advance w n1 evs1) n2 evs2 = advance w (n2 + n1) (evs1 ++ evs2).
Proof.
  unfold advance; simpl. f_equal; [lia | by rewrite <- app_assoc].
Qed.

Lemma exchange_run (w : World C) :
  exchange E route hdrs params data w
  = (inr (transport E (exchanges w)), advance w 1 [sent]).
Proof. reflexivity. Qed.

Ltac run_iteration Ht :=
  unfold iteration_of, try_except, try_body;
  unfold mbind, M_bind, bind; rewrite exchange_run, Ht; cbv beta iota.

Ltac same_world :=
  unfold advance, sleep, emit, raise, mbind, M_bind, bind, mret, M_ret, ret;
  simpl; rewrite <- ?app_assoc; reflexivity.

Ltac decide_status :=
  repeat match goal with
         | |- context [(?a <=? ?b)] => destruct (Z.leb_spec a b)
         | |- context [(?a <? ?b)] => destruct (Z.ltb_spec a b)
         | |- context [(?a =? ?b)] => destruct (Z.eqb_spec a b)
         end; simpl.

Lemma iteration_success tries locals w r d :
  transport E (exchanges w) = Responded r d ->
  success_status (status r) ->
  iteration_of tries locals w = (inr (Return d), advance w 1 [sent]).
Proof.
  intros Ht [Hlo Hhi]. run_iteration Ht.
  decide_status; try lia. same_world.
Qed.

Lemma iteration_too_large tries locals w r d :
  transport E (exchanges w) = Responded r d ->
  status r = 413 ->
  iteration_of tries locals w
  = (inl (RequestEntityTooLarge r too_large_payload), advance w 1 [sent]).
Proof.
  intros Ht Hs. run_iteration Ht. rewrite Hs. same_world.
Qed.

Lemma iteration_rate_limited tries locals w r d text :
  transport E (exchanges w) = Responded r d ->
  status r = 429 ->
  headers_getitem (headers r) "Retry-After" = Some text ->
  float_parses E text = true ->
  iteration_of tries locals w
  = (inr (Next (Some (r, d))), advance w 1 [sent; Sleep (FloatOf text)]).
Proof.
  intros Ht Hs Hh Hf. run_iteration Ht. rewrite Hs; cbn [Z.leb Z.ltb Z.eqb Z.compare Pos.compare Pos.compare_cont Pos.eqb andb].
  rewrite Hh, Hf. same_world.
Qed.

Lemma iteration_transient tries locals w r d :
  transport E (exchanges w) = Responded r d ->
  transient_status (status r) ->
  iteration_of tries locals w
  = (inr (Next (Some (r, d))),
     advance w 1 [sent; Sleep (Seconds (1 + tries * 2))]).
Proof.
  intros Ht Hs. run_iteration Ht.
  assert ((200 <=? status r) && (status r <? 300) = false
          ∧ (status r =? 413) = false ∧ (status r =? 429) = false
          ∧ existsb (Z.eqb (status r)) [500; 502; 503] = true)
    as (-> & -> & -> & ->)
    by (destruct Hs as [-> | [-> | ->]]; repeat split; reflexivity).
  same_world.
Qed.

Lemma not_special_tests s :
  ¬ special_status s ->
  (200 <=? s) && (s <? 300) = false ∧ (s =? 413) = false
  ∧ (s =? 429) = false ∧ existsb (Z.eqb s) [500; 502; 503] = false.
Proof.
  unfold special_status, success_status, transient_status; intros H.
  simpl. decide_status; repeat split; try reflexivity;
    exfalso; apply H; lia.
Qed.

Lemma iteration_mapped tries locals w r m error cls :
  transport E (exchanges w) = Responded r (VDict m) ->
  ¬ special_status (status r) ->
  m !! "error" = Some error ->
  truthy error = true ->
  EXCEPTION_MAPPING E !! status r = Some cls ->
  iteration_of tries locals w
  = (inl (MappedError cls r error), advance w 1 [sent]).
Proof.
  intros Ht Hs Hm Htr Hcls. run_iteration Ht.
  destruct (not_special_tests _ Hs) as (-> & -> & -> & ->).
  unfold lift, dict_get. cbv beta iota.
  rewrite Hm, Htr, Hcls. same_world.
Qed.

(** A body whose [error] entry is missing or falsy ends the iteration
    without a sleep and without an exception. *)
Lemma iteration_falls_through tries locals w r m :
  transport E (exchanges w) = Responded r (VDict m) ->
  ¬ special_status (status r) ->
  truthy (default VNone (m !! "error")) = false ->
  iteration_of tries locals w
  = (inr (Next (Some (r, VDict m))), advance w 1 [sent]).
Proof.
  intros Ht Hs Htr. run_iteration Ht.
  destruct (not_special_tests _ Hs) as (-> & -> & -> & ->).
  unfold lift, dict_get. cbv beta iota.
  destruct (m !! "error") as [error|]; simpl in Htr.
  - rewrite Htr. same_world.
  - same_world.
Qed.

Lemma iteration_connection_reset tries locals w errno :
  transport E (exchanges w) = Raised (OSError (Some errno)) ->
  tries < 4 ->
  errno = 54 ∨ errno = 10054 ->
  iteration_of tries locals w
  = (inr (Next locals),
     advance w 1 [sent; Sleep (Seconds (1 + tries * 2))]).
Proof.
  intros Ht Hlt Herr. run_iteration Ht.
  unfold raise, except_OSError, errno_in. cbv beta iota.
  assert ((tries <? 4) && existsb (Z.eqb errno) [54; 10054] = true) as ->.
  { apply andb_true_intro; split; [lia|].
    destruct Herr as [-> | ->]; reflexivity. }
  same_world.
Qed.

(** The loop, unfolded once. *)
Lemma for_tries_cons tries range locals w :
  for_tries E route hdrs params data (tries :: range) locals w
  = match iteration_of tries locals w with
    | (inl e, w') => (inl e, w')
    | (inr (Return v), w') => (inr (Return v), w')
    | (inr (Next locals'), w') =>
        for_tries E route hdrs params data range locals' w'
    end.
Proof.
  unfold iteration_of. simpl. unfold mbind, M_bind, bind.
  destruct (try_except _ _ w) as [[e|[v|locals']] w']; reflexivity.
Qed.

End Iteration.

(** ** Transient server errors *)

Section Dispatch.

Context {C : Type} (E : Env C).
Variables (route : Route) (credentials : option loc)
  (parameters : option (gmap string value)) (data : value).

Lemma request_run w hdrs w1 :
  prepare E credentials w = (inr hdrs, w1) ->
  request E route credentials parameters data w
  = attempts E route hdrs parameters data w1.
Proof.
  intros H. unfold request, mbind, M_bind, bind. by rewrite H.
Qed.

Lemma attempts_run hdrs w :
  attempts E route hdrs parameters data w
  = match for_tries E route hdrs parameters data [0; 1; 2] None w with
    | (inl e, w') => (inl e, w')
    | (inr (Return v), w') => (inr v, w')
    | (inr (Next locals), w') => after_loop locals w'
    end.
Proof.
  unfold attempts, mbind, M_bind, bind.
  destruct (for_tries _ _ _ _ _ _ _ w) as [[e|[v|locals]] w']; reflexivity.
Qed.

(** C1, as the code has it: three consecutive responses with status 500,
    502 or 503 make [request] attempt exactly three exchanges and sleep
    1, 3 and 5 seconds, one sleep after each attempt, the third included;
    it then raises the generic [HTTPError] built from the last response
    and the [error] entry of its decoded body, when the body has one. *)
Theorem C1_transient_backoff w hdrs w1 r1 d1 r2 d2 r3 d3 error :
  prepare E credentials w = (inr hdrs, w1) ->
  transport E (exchanges w1) = Responded r1 d1 ->
  transient_status (status r1) ->
  transport E (1 + exchanges w1) = Responded r2 d2 ->
  transient_status (status r2) ->
  transport E (2 + exchanges w1) = Responded r3 d3 ->
  transient_status (status r3) ->
  getitem d3 "error" = inr error ->
  let sent := attempt_event E route hdrs parameters data in
  request E route credentials parameters data w
  = (inl (HTTPError r3 error),
     advance w1 3 [sent; Sleep (Seconds 1); sent; Sleep (Seconds 3);
                   sent; Sleep (Seconds 5)]).
Proof.
  intros Hp H1 S1 H2 S2 H3 S3 Herr sent.
  rewrite (request_run _ _ _ Hp), attempts_run.
  rewrite for_tries_cons, (iteration_transient E _ _ _ _ _ _ _ _ _ H1 S1).
  rewrite for_tries_cons.
  rewrite (iteration_transient E _ _ _ _ 1 _ (advance w1 1 _) _ _ H2 S2).
  rewrite advance_advance, for_tries_cons.
  rewrite (iteration_transient E _ _ _ _ 2 _ (advance w1 2 _) _ _ H3 S3).
  rewrite advance_advance.
  unfold for_tries, after_loop, Response_bool, lift, raise.
  unfold mret, M_ret, ret, mbind, M_bind, bind. rewrite Herr. reflexivity.
Qed.

(** ** Rate limiting *)

Lemma for_tries_rate_limited tries range locals w hdrs text :
  rate_limited_at E (exchanges w) text ->
  ∃ r d,
    for_tries E route hdrs parameters data (tries :: range) locals w
    = for_tries E route hdrs parameters data range (Some (r, d))
        (advance w 1 [attempt_event E route hdrs parameters data;
                      Sleep (FloatOf text)]).
Proof.
  intros (r & d & Ht & Hs & Hh & Hf). exists r, d.
  rewrite for_tries_cons.
  by rewrite (iteration_rate_limited E _ _ _ _ _ _ _ _ _ _ Ht Hs Hh Hf).
Qed.

Lemma for_tries_success tries range locals w hdrs r body :
  transport E (exchanges w) = Responded r body ->
  success_status (status r) ->
  for_tries E route hdrs parameters data (tries :: range) locals w
  = (inr (Return body),
     advance w 1 [attempt_event E route hdrs parameters data]).
Proof.
  intros Ht Hs. rewrite for_tries_cons.
  by rewrite (iteration_success E _ _ _ _ _ _ _ _ _ Ht Hs).
Qed.

Lemma after_loop_raises r d (w : World C) :
  ∃ e, after_loop (Some (r, d)) w = (inl e, w).
Proof.
  unfold after_loop, Response_bool, lift, raise, mbind, M_bind, bind.
  destruct (getitem d "error") as [e|v]; eauto.
Qed.

Ltac wait_out Hw i t :=
  match goal with
  | |- context [for_tries _ _ ?h _ _ (?tries :: ?range) ?locals ?w'] =>
      destruct (for_tries_rate_limited tries range locals w' h t
                  (Hw i t eq_refl)) as (? & ? & ->)
  end.

(** C2, as the code has it: a 429 response makes [request] sleep for the
    [Retry-After] duration and go to the next value of [tries], so rate
    limiting shares the three attempts of the loop.  Up to two
    consecutive 429 responses followed by a 2xx response are waited out
    and the decoded 2xx body is returned; a third consecutive 429 ends
    the loop, no fourth exchange is made and the call raises. *)
Theorem C2_rate_limit_shares_attempts w hdrs w1 (waits : list string) :
  prepare E credentials w = (inr hdrs, w1) ->
  (∀ i text, waits !! i = Some text ->
             rate_limited_at E (i + exchanges w1) text) ->
  let sent := attempt_event E route hdrs parameters data in
  let waited := flat_map (λ text, [sent; Sleep (FloatOf text)]) waits in
  ((length waits <= 2)%nat ->
   ∀ r body,
     transport E (length waits + exchanges w1) = Responded r body ->
     success_status (status r) ->
     request E route credentials parameters data w
     = (inr body, advance w1 (S (length waits)) (waited ++ [sent])))
  ∧ (length waits = 3%nat ->
     ∃ e, request E route credentials parameters data w
          = (inl e, advance w1 3 waited)).
Proof.
  intros Hp Hw sent waited. subst sent waited.
  rewrite (request_run _ _ _ Hp), attempts_run.
  split.
  - intros Hlen r body Ht Hs.
    destruct waits as [|t0 [|t1 [|t2 ?]]]; simpl in Hlen, Ht; try lia.
    + by rewrite (for_tries_success _ _ _ _ _ _ _ Ht Hs).
    + wait_out Hw 0%nat t0.
      rewrite (for_tries_success _ _ _ (advance w1 1 _) _ _ _ Ht Hs).
      by rewrite advance_advance.
    + wait_out Hw 0%nat t0. wait_out Hw 1%nat t1.
      rewrite advance_advance.
      rewrite (for_tries_success _ _ _ (advance w1 2 _) _ _ _ Ht Hs).
      by rewrite advance_advance.
  - intros Hlen.
    destruct waits as [|t0 [|t1 [|t2 [|? ?]]]]; simpl in Hlen; try lia.
    wait_out Hw 0%nat t0. wait_out Hw 1%nat t1. rewrite advance_advance.
    wait_out Hw 2%nat t2. rewrite advance_advance.
    simpl for_tries. unfold mret, M_ret, ret.
    match goal with
    | |- context [after_loop (Some (?r, ?d)) ?w'] =>
        destruct (after_loop_raises r d w') as [e He]
    end.
    exists e. rewrite He. reflexivity.
Qed.

(** ** Connection errors *)

(** Three connection resets in a row: every one is retried, because
    [tries < 4] holds throughout [range(3)], and the statements after the
    loop then read a [response] that was never bound. *)
Lemma connection_resets_exhaust w hdrs w1 e0 e1 e2 :
  prepare E credentials w = (inr hdrs, w1) ->
  transport E (exchanges w1) = Raised (OSError (Some e0)) ->
  transport E (1 + exchanges w1) = Raised (OSError (Some e1)) ->
  transport E (2 + exchanges w1) = Raised (OSError (Some e2)) ->
  Forall (λ e, e = 54 ∨ e = 10054) [e0; e1; e2] ->
  let sent := attempt_event E route hdrs parameters data in
  request E route credentials parameters data w
  = (inl (UnboundLocalError "response"),
     advance w1 3 [sent; Sleep (Seconds 1); sent; Sleep (Seconds 3);
                   sent; Sleep (Seconds 5)]).
Proof.
  intros Hp H0 H1 H2 Hall sent.
  apply Forall_cons in Hall as [E0 Hall].
  apply Forall_cons in Hall as [E1 Hall].
  apply Forall_cons in Hall as [E2 _].
  rewrite (request_run _ _ _ Hp), attempts_run.
  rewrite for_tries_cons.
  rewrite (iteration_connection_reset E _ _ _ _ 0 _ _ _ H0 ltac:(lia) E0).
  rewrite for_tries_cons.
  rewrite (iteration_connection_reset E _ _ _ _ 1 _ (advance w1 1 _) _ H1
             ltac:(lia) E1).
  rewrite advance_advance, for_tries_cons.
  rewrite (iteration_connection_reset E _ _ _ _ 2 _ (advance w1 2 _) _ H2
             ltac:(lia) E2).
  rewrite advance_advance. reflexivity.
Qed.

(** ** Errors that are not retried *)

(** C4: a first response with status 413 makes [request] raise
    [RequestEntityTooLarge] at once, after that one exchange and without
    a sleep, with the payload that the code supplies itself. *)
Theorem C4_payload_too_large_immediate w hdrs w1 r d :
  prepare E credentials w = (inr hdrs, w1) ->
  transport E (exchanges w1) = Responded r d ->
  status r = 413 ->
  request E route credentials parameters data w
  = (inl (RequestEntityTooLarge r too_large_payload),
     advance w1 1 [attempt_event E route hdrs parameters data])
  ∧ getitem too_large_payload "message"
    = inr (VStr "Request entity too large.").
Proof.
  intros Hp Ht Hs. split; [|reflexivity].
  rewrite (request_run _ _ _ Hp), attempts_run, for_tries_cons.
  by rewrite (iteration_too_large E _ _ _ _ _ _ _ _ _ Ht Hs).
Qed.

(** C5, as the code has it: when the status is none of 2xx, 413, 429,
    500, 502, 503, the decoded body is an object whose [error] entry is
    truthy (not null, empty, zero or false) and the status is a key of
    [EXCEPTION_MAPPING], [request] raises at once, after that one
    exchange and without a sleep, the exception class that the mapping
    gives for the status, built from the response and that entry. *)
Theorem C5_mapped_error_immediate w hdrs w1 r m error cls :
  prepare E credentials w = (inr hdrs, w1) ->
  transport E (exchanges w1) = Responded r (VDict m) ->
  ¬ special_status (status r) ->
  m !! "error" = Some error ->
  truthy error = true ->
  EXCEPTION_MAPPING E !! status r = Some cls ->
  request E route credentials parameters data w
  = (inl (MappedError cls r error),
     advance w1 1 [attempt_event E route hdrs parameters data]).
Proof.
  intros Hp Ht Hs Hm Htr Hcls.
  rewrite (request_run _ _ _ Hp), attempts_run, for_tries_cons.
  by rewrite (iteration_mapped E _ _ _ _ _ _ _ _ _ _ _ Ht Hs Hm Htr Hcls).
Qed.

End Dispatch.

(** ** What a call leaves in the trace *)

Section Traces.

Context {C : Type} (E : Env C).
Variables (route : Route) (hdrs : gmap string string)
  (parameters : option (gmap string value)) (data : value).

Let sent := attempt_event E route hdrs parameters data.

Ltac world_shape evs :=
  exists evs; split;
  [ unfold advance, sleep, emit, raise, lift, mbind, M_bind, bind, mret,
      M_ret, ret; simpl; rewrite <- ?app_assoc; reflexivity
  | repeat match goal with
           | |- Forall _ _ => constructor
           end; unfold loop_event; eauto ].

Lemma iteration_shape tries locals w :
  ∃ evs,
    (try_except (try_body E route hdrs parameters data tries locals)
       (except_OSError tries locals) w).2 = advance w 1 evs
    ∧ Forall (loop_event sent) evs.
Proof.
  unfold try_except, try_body, mbind at 1, M_bind at 1, bind at 1.
  rewrite exchange_run. fold sent.
  destruct (transport E (exchanges w)) as [e|r d]; cbv beta iota.
  - unfold raise, except_OSError.
    destruct e; try world_shape [sent].
    destruct (_ && _); [|world_shape [sent]].
    world_shape [sent; Sleep (Seconds (1 + tries * 2))].
  - destruct (_ && _); [world_shape [sent]|].
    destruct (_ =? 413); [world_shape [sent]|].
    destruct (_ =? 429).
    { destruct (headers_getitem _ _) as [text|]; [|world_shape [sent]].
      destruct (float_parses E text); [|world_shape [sent]].
      world_shape [sent; Sleep (FloatOf text)]. }
    destruct (existsb _ _).
    { world_shape [sent; Sleep (Seconds (1 + tries * 2))]. }
    unfold lift, dict_get, mbind, M_bind, bind.
    destruct d as [| | | | |m]; try world_shape [sent].
    destruct (m !! "error") as [error|]; [|world_shape [sent]].
    destruct (truthy error); [|world_shape [sent]].
    destruct (_ !! _); world_shape [sent].
Qed.

Lemma advance_0 (w : World C) : advance w 0 [] = w.
Proof. destruct w; unfold advance; simpl. by rewrite app_nil_r. Qed.

Lemma for_tries_shape range locals w :
  ∃ n evs,
    (for_tries E route hdrs parameters data range locals w).2
    = advance w n evs
    ∧ Forall (loop_event sent) evs.
Proof.
  revert locals w. induction range as [|tries range IH]; intros locals w.
  - exists 0%nat, []. split; [|constructor]. by rewrite advance_0.
  - rewrite for_tries_cons.
    destruct (iteration_shape tries locals w) as (evs & Hw & Hevs).
    destruct (try_except _ _ w) as [[e|[v|locals']] w'];
      simpl in Hw; subst w'; try by (exists 1%nat, evs).
    destruct (IH locals' (advance w 1 evs)) as (n & evs' & -> & Hevs').
    exists (n + 1)%nat, (evs ++ evs')%list. rewrite advance_advance.
    split; [reflexivity | by apply Forall_app].
Qed.

Lemma after_loop_world locals (w : World C) : (after_loop locals w).2 = w.
Proof.
  unfold after_loop, Response_bool, lift, raise, mbind, M_bind, bind.
  destruct locals as [[r d]|]; [|reflexivity].
  destruct (getitem d "error"); reflexivity.
Qed.

Lemma attempts_shape w :
  ∃ n evs,
    (attempts E route hdrs parameters data w).2 = advance w n evs
    ∧ Forall (loop_event sent) evs.
Proof.
  rewrite attempts_run.
  destruct (for_tries_shape [0; 1; 2] None w) as (n & evs & Hw & Hevs).
  destruct (for_tries _ _ _ _ _ _ _ w) as [[e|[v|locals]] w'];
    simpl in Hw; subst w'; try by (exists n, evs).
  exists n, evs. by rewrite after_loop_world.
Qed.

End Traces.

(** ** Credentials *)

Section Credentials.

Context {C : Type} (E : Env C).

Ltac run :=
  unfold _get_credentials, _ensure_session_exists, get_self, set_self,
    read, write, alloc, emit, raise, lift, mbind, M_bind, bind, mret,
    M_ret, ret; simpl.

Ltac created_or_eauto :=
  match goal with
  | |- Forall _ _ => repeat constructor; unfold creation_event; eauto
  | _ => eauto
  end.

Lemma get_credentials_shape credentials (w : World C) :
  (∃ e, (_get_credentials E credentials w).1 = inl e
        ∧ trace (_get_credentials E credentials w).2
          = (trace w ++ [FromClientSecret (_client_id (self w))
                           (_client_secret (self w))])%list)
  ∨ ∃ created l b,
      trace (_get_credentials E credentials w).2
      = (trace w ++ created ++ expiry_check l b)%list
      ∧ Forall creation_event created
      ∧ effective credentials (self (_get_credentials E credentials w).2) l
      ∧ ((_get_credentials E credentials w).1 = inr l
         ∨ b = true ∧ ∃ e, (_get_credentials E credentials w).1 = inl e).
Proof.
  run. destruct (_client_credentials (self w)) as [l0|] eqn:Hc; simpl.
  - right. exists [], (default l0 credentials).
    exists (is_expired E (heap w (default l0 credentials))).
    destruct credentials as [l|]; simpl;
      destruct (is_expired E (heap w _)); simpl;
      try destruct (refresh E (heap w _)).2; simpl;
      rewrite <- ?app_assoc; repeat split; eauto.
  - destruct (from_client_secret E _ _) as [e|s]; simpl; [left; eauto|].
    right. exists [FromClientSecret (_client_id (self w))
                     (_client_secret (self w))].
    exists (default (next_loc w) credentials).
    destruct credentials as [l|]; simpl.
    + exists (is_expired E (if Nat.eqb l (next_loc w) then s else heap w l)).
      destruct (is_expired E _); simpl;
        try destruct (refresh E _).2; simpl;
        rewrite <- ?app_assoc; repeat split; created_or_eauto.
    + rewrite Nat.eqb_refl. exists (is_expired E s).
      destruct (is_expired E s); simpl;
        try destruct (refresh E s).2; simpl;
        rewrite <- ?app_assoc; repeat split; created_or_eauto.
Qed.

Lemma ensure_session_shape (w : World C) :
  ∃ w0 sess,
    _ensure_session_exists w = (inr tt, w0)
    ∧ trace w0 = (trace w ++ sess)%list
    ∧ Forall (λ ev, is_attempt ev = false) sess
    ∧ is_Some (_session (self w0)).
Proof.
  run. destruct (_session (self w)) as [[[|]]|] eqn:Hs; simpl.
  - eexists _, [NewSession]; repeat split; eauto.
  - exists w, []. rewrite app_nil_r, Hs. repeat split; eauto.
  - eexists _, [NewSession]; repeat split; eauto.
Qed.

Lemma prepare_run credentials (w w0 : World C) :
  _ensure_session_exists w = (inr tt, w0) ->
  is_Some (_session (self w0)) ->
  prepare E credentials w
  = match _get_credentials E credentials w0 with
    | (inl e, w1) => (inl e, w1)
    | (inr l, w1) => (inr (authorization E (heap w1 l)), w1)
    end.
Proof.
  intros He [c Hc]. unfold prepare, mbind, M_bind, bind. rewrite He.
  unfold get_self; cbv beta iota. rewrite Hc.
  unfold mret, M_ret, ret; cbv beta iota.
  destruct (_get_credentials E credentials w0) as [[e|l] w1]; reflexivity.
Qed.

Lemma prepare_shape credentials (w : World C) :
  ∃ evs,
    trace (prepare E credentials w).2 = (trace w ++ evs)%list
    ∧ Forall (λ ev, is_attempt ev = false) evs
    ∧ ∀ hdrs,
        (prepare E credentials w).1 = inr hdrs ->
        ∃ before l b,
          evs = (before ++ expiry_check l b)%list
          ∧ effective credentials (self (prepare E credentials w).2) l
          ∧ hdrs = authorization E (heap (prepare E credentials w).2 l).
Proof.
  destruct (ensure_session_shape w) as (w0 & sess & He & Ht & Hsess & Hc).
  rewrite (prepare_run credentials w w0 He Hc).
  pose proof (get_credentials_shape credentials w0) as Hg.
  destruct (_get_credentials E credentials w0) as [[e|l] w1]; simpl in Hg.
  - destruct Hg as [(e' & _ & Hw1) | (created & l & b & Hw1 & Hcr & _ & _)].
    + exists (sess ++ [FromClientSecret (_client_id (self w0))
                        (_client_secret (self w0))])%list.
      simpl. rewrite Hw1, Ht, <- app_assoc. split; [done|].
      split; [|intros ? [=]]. apply Forall_app. split; [done|].
      by repeat constructor.
    + exists (sess ++ created ++ expiry_check l b)%list.
      simpl. rewrite Hw1, Ht, <- app_assoc. split; [done|].
      split; [|intros ? [=]]. repeat (apply Forall_app; split); try done.
      * eapply Forall_impl; [exact Hcr|]. by intros ev (? & ? & ->).
      * unfold expiry_check. destruct b; by repeat constructor.
  - destruct Hg as [(e' & He' & _) | (created & l' & b & Hw1 & Hcr & Heff & Hr)];
      [discriminate|].
    destruct Hr as [Hr | (_ & e' & He')]; [|discriminate].
    injection Hr as ->.
    exists (sess ++ created ++ expiry_check l' b)%list. simpl.
    rewrite Hw1, Ht, <- app_assoc. split; [done|]. split.
    + repeat (apply Forall_app; split); try done.
      * eapply Forall_impl; [exact Hcr|]. by intros ev (? & ? & ->).
      * unfold expiry_check. destruct b; by repeat constructor.
    + intros hdrs Hh. injection Hh as <-.
      exists (sess ++ created)%list, l', b.
      rewrite <- app_assoc. repeat split; done.
Qed.

Lemma ensure_session_found (w w0 : World C) l :
  _ensure_session_exists w = (inr tt, w0) -> found E w0 l = found E w l.
Proof.
  run. destruct (_session (self w)) as [[[|]]|]; simpl;
    intros [= <-]; reflexivity.
Qed.

(** What [_get_credentials] does to the credentials it works with. *)
Lemma get_credentials_checked credentials (w : World C) :
  (_client_credentials (self w) = None
   ∧ ∃ e, from_client_secret E (_client_id (self w))
            (_client_secret (self w)) = inl e
          ∧ (_get_credentials E credentials w).1 = inl e
          ∧ trace (_get_credentials E credentials w).2
            = (trace w ++ [FromClientSecret (_client_id (self w))
                             (_client_secret (self w))])%list)
  ∨ ∃ created l,
      trace (_get_credentials E credentials w).2
      = (trace w ++ created
         ++ expiry_check l (is_expired E (found E w l)))%list
      ∧ Forall creation_event created
      ∧ effective credentials (self (_get_credentials E credentials w).2) l
      ∧ heap (_get_credentials E credentials w).2 l
        = checked E (found E w l)
      ∧ (_get_credentials E credentials w).1
        = match refresh_failure E (found E w l) with
          | Some e => inl e
          | None => inr l
          end.
Proof.
  unfold found, checked, refresh_failure. run.
  destruct (_client_credentials (self w)) as [l0|] eqn:Hc; simpl.
  - right. exists [], (default l0 credentials).
    destruct credentials as [l|]; simpl;
      destruct (is_expired E (heap w _)); simpl;
      try destruct (refresh E (heap w _)).2; simpl;
      rewrite <- ?app_assoc, ?Nat.eqb_refl; repeat split; eauto.
  - destruct (from_client_secret E _ _) as [e|s]; simpl; [left; eauto|].
    right. exists [FromClientSecret (_client_id (self w))
                     (_client_secret (self w))].
    exists (default (next_loc w) credentials).
    destruct credentials as [l|]; simpl.
    + destruct (is_expired E (if Nat.eqb l (next_loc w) then s else heap w l));
        simpl; try destruct (refresh E _).2; simpl;
        rewrite <- ?app_assoc, ?Nat.eqb_refl; repeat split; created_or_eauto.
    + rewrite !Nat.eqb_refl.
      destruct (is_expired E s); simpl;
        try destruct (refresh E s).2; simpl;
        rewrite <- ?app_assoc, ?Nat.eqb_refl; repeat split; created_or_eauto.
Qed.

(** C6: [_get_credentials] asks the effective credentials (the caller's
    if given, else the client's own) once whether they are expired, in
    the state it finds them in.  When the answer is yes it refreshes them
    exactly once before it returns them: the object is left in the state
    that [refresh] gives, and an exception of [refresh] ends the call.
    When the answer is no it does not refresh them and leaves them as
    they are.  Hence in every call of [request] that makes an exchange,
    each exchange comes after that check, the refresh (if there was one)
    has returned, and the exchange carries the token of the credentials
    as the check has left them; when the client's own credentials cannot
    be created or [refresh] raises, the call ends in that exception and
    makes no exchange. *)
Theorem C6_expired_credentials_refreshed_before_use
  credentials (w : World C) route parameters data :
  ((_client_credentials (self w) = None
    ∧ ∃ e, from_client_secret E (_client_id (self w))
             (_client_secret (self w)) = inl e
           ∧ (_get_credentials E credentials w).1 = inl e
           ∧ trace (_get_credentials E credentials w).2
             = (trace w ++ [FromClientSecret (_client_id (self w))
                              (_client_secret (self w))])%list)
   ∨ ∃ created l,
       trace (_get_credentials E credentials w).2
       = (trace w ++ created
          ++ expiry_check l (is_expired E (found E w l)))%list
       ∧ Forall creation_event created
       ∧ effective credentials (self (_get_credentials E credentials w).2) l
       ∧ heap (_get_credentials E credentials w).2 l
         = checked E (found E w l)
       ∧ (_get_credentials E credentials w).1
         = match refresh_failure E (found E w l) with
           | Some e => inl e
           | None => inr l
           end)
  ∧ ∃ evs,
      trace (request E route credentials parameters data w).2
      = (trace w ++ evs)%list
      ∧ ((Forall (λ ev, is_attempt ev = false) evs
          ∧ ∃ e,
              (request E route credentials parameters data w).1 = inl e
              ∧ (_client_credentials (self w) = None
                 ∧ from_client_secret E (_client_id (self w))
                     (_client_secret (self w)) = inl e
                 ∨ ∃ l,
                     effective credentials
                       (self (request E route credentials parameters
                                data w).2) l
                     ∧ refresh_failure E (found E w l) = Some e))
         ∨ ∃ before l after,
             evs = (before
                    ++ expiry_check l (is_expired E (found E w l))
                    ++ after)%list
             ∧ Forall (λ ev, is_attempt ev = false) before
             ∧ effective credentials
                 (self (request E route credentials parameters data w).2) l
             ∧ refresh_failure E (found E w l) = None
             ∧ Forall
                 (loop_event
                    (attempt_event E route
                       (authorization E (checked E (found E w l)))
                       parameters data))
                 after).
Proof.
  split; [apply get_credentials_checked|].
  destruct (ensure_session_shape w) as (w0 & sess & He & Ht & Hsess & Hc).
  unfold request, mbind, M_bind, bind.
  rewrite (prepare_run credentials w w0 He Hc).
  assert (Hself : _client_credentials (self w0) = _client_credentials (self w)
                  ∧ _client_id (self w0) = _client_id (self w)
                  ∧ _client_secret (self w0) = _client_secret (self w)).
  { revert He. run. destruct (_session (self w)) as [[[|]]|]; simpl;
      intros [= <-]; done. }
  destruct Hself as (Hcc & Hid & Hsecret).
  assert (Hnot : ∀ l b, Forall (λ ev, is_attempt ev = false)
                          (expiry_check l b)).
  { intros l b. unfold expiry_check. destruct b; by repeat constructor. }
  destruct (get_credentials_checked credentials w0)
    as [(Hnone & e & Hfrom & Hres & Htr)
       | (created & l & Htr & Hcr & Heff & Hheap & Hres)].
  - rewrite Hcc in Hnone. rewrite Hid, Hsecret in Hfrom, Htr.
    destruct (_get_credentials E credentials w0) as [[e'|l'] w1];
      simpl in *; [|discriminate]. injection Hres as ->.
    exists (sess ++ [FromClientSecret (_client_id (self w))
                       (_client_secret (self w))])%list.
    rewrite Htr, Ht, <- app_assoc. split; [done|]. left. split.
    + apply Forall_app. split; [done | by repeat constructor].
    + exists e. split; [done|]. by left.
  - rewrite !(ensure_session_found w w0 l He) in *.
    assert (Hcreated : Forall (λ ev, is_attempt ev = false) created).
    { eapply Forall_impl; [exact Hcr|]. by intros ev (? & ? & ->). }
    destruct (_get_credentials E credentials w0) as [[e'|l'] w1];
      simpl in *.
    + destruct (refresh_failure E (found E w l)) as [e|] eqn:Hf;
        [|discriminate]. injection Hres as ->.
      exists (sess ++ created
              ++ expiry_check l (is_expired E (found E w l)))%list.
      rewrite Htr, Ht, <- app_assoc. split; [done|]. left. split.
      * repeat (apply Forall_app; split); done.
      * exists e. split; [done|]. right. by exists l.
    + destruct (refresh_failure E (found E w l)) as [e|] eqn:Hf;
        [discriminate|]. injection Hres as ->.
      rewrite Hheap.
      destruct (attempts_shape E route
                  (authorization E (checked E (found E w l)))
                  parameters data w1) as (n & after & -> & Hafter).
      exists ((sess ++ created
               ++ expiry_check l (is_expired E (found E w l)))
              ++ after)%list.
      unfold advance; simpl. rewrite Htr, Ht.
      split; [by rewrite <- !app_assoc|].
      right. exists (sess ++ created)%list, l, after.
      rewrite <- !app_assoc. repeat split; try done.
      by apply Forall_app.
Qed.

End Credentials.

(** ** Validation in the endpoint methods *)

Create HintDb endpoints.

#[local] Hint Unfold get_albums get_album_tracks get_saved_albums save_albums
  remove_albums check_saved_albums get_new_releases get_artists
  get_artist_albums get_shows get_show_episodes get_saved_shows save_shows
  remove_shows check_saved_shows get_episodes get_saved_episodes
  save_episodes remove_episodes check_saved_episodes get_tracks
  get_saved_tracks save_tracks remove_tracks check_saved_tracks
  get_several_tracks_audio_features get_recommendations search
  get_current_user_top_artists get_current_user_top_tracks
  check_if_users_follow_playlists get_followed_artists follow_users
  follow_artists unfollow_users unfollow_artists check_followed_users
  check_followed_artists get_playlist_items add_items_to_playlist
  replace_playlist_items remove_items_from_playlist
  get_current_user_playlists get_user_playlists get_featured_playlists
  get_category_playlists get_categories get_recently_played_tracks
  : endpoints.

Section Validation.

Context {C : Type} (E : Env C).

(** C8: a method whose list argument has a documented maximum raises
    [ValueError] when it is called with more entries than that, and
    leaves the world as it was: no session, no credentials, no exchange
    and no sleep, hence nothing that could be tried again. *)
Theorem C8_list_bound_checked_before_any_request ep a n (w : World C) :
  max_entries ep = Some n ->
  (n < entry_count ep a)%nat ->
  ∃ msg, call E ep a w = (inl (ValueError msg), w).
Proof.
  intros Hmax Hlt. apply Nat.ltb_lt in Hlt.
  destruct ep; simpl in Hmax; try discriminate;
    injection Hmax as <-; unfold entry_count in Hlt;
    unfold call; autounfold with endpoints;
    unfold raise_if, mbind, M_bind, bind; rewrite Hlt, ?orb_true_r;
    eexists; reflexivity.
Qed.

(** *** The optional [limit] *)

Lemma request_sends_no_limit route credentials parameters data :
  parameters !! "limit" = None ->
  sends_no_limit (request E route credentials (Some parameters) data).
Proof.
  intros Hp w.
  destruct (prepare_shape E credentials w) as (evs & Ht & Hevs & _).
  unfold request, mbind, M_bind, bind.
  destruct (prepare E credentials w) as [[e|hdrs] w1]; simpl in *.
  - exists evs. split; [done|].
    eapply Forall_impl; [exact Hevs|]. by intros [] ?.
  - destruct (attempts_shape E route hdrs (Some parameters) data w1)
      as (n & after & -> & Hafter).
    exists (evs ++ after)%list. unfold advance; simpl.
    rewrite Ht, <- app_assoc. split; [done|].
    apply Forall_app. split.
    + eapply Forall_impl; [exact Hevs|]. by intros [] ?.
    + eapply Forall_impl; [exact Hafter|].
      by intros ev [-> | [d ->]].
Qed.

Lemma raise_sends_no_limit e : sends_no_limit (raise e : M C value).
Proof. intros w. exists []. by rewrite app_nil_r. Qed.

Lemma route_sends_no_limit method path kwargs (k : Route -> M C value) :
  (∀ route, sends_no_limit (k route)) ->
  sends_no_limit (new_Route E method path kwargs ≫= k).
Proof.
  intros Hk w. unfold new_Route, lift, mbind, M_bind, bind.
  destruct (Route_init _ _ _ _) as [e|route]; [|apply Hk].
  exists []. by rewrite app_nil_r.
Qed.

Lemma raise_if_sends_no_limit c e (m : M C value) :
  sends_no_limit m -> sends_no_limit (raise_if c e ≫= λ _, m).
Proof.
  intros Hm w. unfold raise_if, mbind, M_bind, bind.
  destruct c; [|apply Hm]. exists []. by rewrite app_nil_r.
Qed.

Lemma seed_kwargs_send_no_limit kwargs parameters
  (k : gmap string value -> M C value) :
  "limit" ∉ kwargs.*1 ->
  parameters !! "limit" = None ->
  (∀ parameters', parameters' !! "limit" = None ->
                  sends_no_limit (k parameters')) ->
  sends_no_limit (add_seed_kwargs E kwargs parameters ≫= k).
Proof.
  intros Hk Hp Hcont. revert parameters Hp.
  induction kwargs as [|[key v] kwargs IH]; intros parameters Hp w.
  - by apply Hcont.
  - simpl in Hk. apply not_elem_of_cons in Hk as [Hne Hk].
    specialize (IH Hk (<[key := v]> parameters)
                  ltac:(by rewrite lookup_insert_ne) w).
    simpl. unfold raise_if, mbind, M_bind, bind in *.
    destruct (negb _); [|exact IH].
    exists []. by rewrite app_nil_r.
Qed.

Lemma bind_ret {A B} (a : A) (k : A -> M C B) : mret a ≫= k = k a.
Proof. reflexivity. Qed.

(** C9: in every method that takes an optional [limit], a [limit] of 0
    is treated as no [limit]: the call does what it does when [limit] is
    [None], [utils.limit_value] plays no part in it (so no range error
    can come of it), and no exchange of the call sends a [limit] query
    parameter.  ([limit] being a parameter of the method, it is not
    among the extra keyword arguments of [get_recommendations].) *)
Theorem C9_zero_limit_is_skipped ep a (w : World C) :
  has_limit ep = true ->
  "limit" ∉ (arg_kwargs a).*1 ->
  call E ep (with_limit (VInt 0) a) w = call E ep (with_limit VNone a) w
  ∧ (∀ check,
       call (with_limit_value check E) ep (with_limit (VInt 0) a) w
       = call E ep (with_limit (VInt 0) a) w)
  ∧ sends_no_limit (call E ep (with_limit (VInt 0) a)).
Proof.
  intros Hl Hk. split; [|split].
  - destruct ep; try discriminate; reflexivity.
  - intros check. destruct ep; try discriminate; reflexivity.
  - destruct ep; try discriminate; unfold call; autounfold with endpoints;
      cbn [with_limit arg_limit arg_id arg_ids arg_market arg_country
           arg_locale arg_timestamp arg_fields arg_offset arg_position
           arg_snapshot_id arg_before arg_after arg_include_groups
           arg_time_range arg_query arg_search_types arg_include_external
           arg_seed_artist_ids arg_seed_genres arg_seed_track_ids
           arg_kwargs arg_credentials truthy Z.eqb negb];
      cbv zeta; rewrite ?bind_ret;
      try apply raise_if_sends_no_limit;
      try (apply route_sends_no_limit; intros route;
           apply request_sends_no_limit;
           repeat case_match; by simplify_map_eq).
    apply seed_kwargs_send_no_limit; [done | |].
    + repeat case_match; by simplify_map_eq.
    + intros parameters' Hp. cbn [truthy Z.eqb negb]. rewrite bind_ret.
      apply route_sends_no_limit; intros route.
      apply request_sends_no_limit.
      repeat case_match; by simplify_map_eq.
Qed.

End Validation.

(** ** The retry loop on the concrete client *)

(** C1 on a transport that answers 503 every time. *)
Lemma C1_transient_backoff_witness :
  Scenario.get (λ _, Scenario.unavailable)
  = (inl (HTTPError {| status := 503; headers := [] |}
            (VDict {[ "message" := VStr "service unavailable" ]})),
     advance (Scenario.prepared (λ _, Scenario.unavailable)) 3
       [Scenario.get_me "app"; Sleep (Seconds 1);
        Scenario.get_me "app"; Sleep (Seconds 3);
        Scenario.get_me "app"; Sleep (Seconds 5)]).
Proof.
  eapply (C1_transient_backoff (Scenario.env (λ _, Scenario.unavailable))
           Scenario.me None None VNone Scenario.world (Scenario.bearer "app")
           (Scenario.prepared (λ _, Scenario.unavailable))
           _ _ _ _ _ _ _);
    try reflexivity; right; right; reflexivity.
Defined.

(** C1, as it is written, fails on a transport that answers 503 three
    times: the third attempt is followed by a sleep of 5 seconds before the
    error is raised, so the sleeps are not only those of 1 and 3 seconds. *)
Lemma C1_sleeps_after_third_attempt :
  Scenario.attempts_made (trace (Scenario.get (λ _, Scenario.unavailable)).2)
  = 3%nat
  ∧ Scenario.sleeps (trace (Scenario.get (λ _, Scenario.unavailable)).2)
    = [Seconds 1; Seconds 3; Seconds 5]
  ∧ Scenario.sleeps (trace (Scenario.get (λ _, Scenario.unavailable)).2)
    ≠ [Seconds 1; Seconds 3].
Proof.
  repeat split; try (vm_compute; reflexivity).
  vm_compute. discriminate.
Qed.

(** C2 on a transport that answers 429 twice and then 200. *)
Lemma C2_rate_limit_shares_attempts_witness :
  Scenario.get (Scenario.first_then 2 Scenario.slow_down Scenario.ok)
  = (inr (VDict {[ "id" := VStr "me" ]}),
     advance
       (Scenario.prepared (Scenario.first_then 2 Scenario.slow_down Scenario.ok))
       3
       [Scenario.get_me "app"; Sleep (FloatOf "0.01");
        Scenario.get_me "app"; Sleep (FloatOf "0.01");
        Scenario.get_me "app"]).
Proof.
  refine (proj1 (C2_rate_limit_shares_attempts
                   (Scenario.env
                      (Scenario.first_then 2 Scenario.slow_down Scenario.ok))
                   Scenario.me None None VNone Scenario.world
                   (Scenario.bearer "app")
                   (Scenario.prepared
                      (Scenario.first_then 2 Scenario.slow_down Scenario.ok))
                   ["0.01"; "0.01"] _ _) _ _ _ _ _).
  - reflexivity.
  - intros [|[|i]] text H; simpl in H; inversion H; subst;
      eexists _, _; repeat split; reflexivity.
  - simpl; lia.
  - reflexivity.
  - unfold success_status; simpl; lia.
Defined.

(** C2, as it is written, fails for three consecutive 429 responses
    followed by a 200: the loop is used up by the three waits, the 200 is
    never requested and the call raises. *)
Lemma C2_three_rate_limits_raise :
  (Scenario.get (Scenario.first_then 3 Scenario.slow_down Scenario.ok)).1
  = inl (HTTPError
           {| status := 429; headers := [("Retry-After", "0.01")] |}
           (VDict {[ "message" := VStr "rate limited" ]}))
  ∧ exchanges
      (Scenario.get (Scenario.first_then 3 Scenario.slow_down Scenario.ok)).2
    = 3%nat
  ∧ (Scenario.get (Scenario.first_then 3 Scenario.slow_down Scenario.ok)).1
    ≠ inr (VDict {[ "id" := VStr "me" ]}).
Proof.
  repeat split; try (vm_compute; reflexivity).
  vm_compute. discriminate.
Qed.

(** C3 fails on the code: when every attempt raises [OSError] with errno
    54, all three are retried (with sleeps of 1, 3 and 5 seconds) and the
    call then ends in [UnboundLocalError] for [response]; the connection
    error is not raised again. *)
Theorem C3_connection_reset_not_reraised :
  (Scenario.get (λ _, Scenario.reset)).1 = inl (UnboundLocalError "response")
  ∧ (Scenario.get (λ _, Scenario.reset)).1 ≠ inl (OSError (Some 54))
  ∧ Scenario.attempts_made (trace (Scenario.get (λ _, Scenario.reset)).2)
    = 3%nat
  ∧ Scenario.sleeps (trace (Scenario.get (λ _, Scenario.reset)).2)
    = [Seconds 1; Seconds 3; Seconds 5].
Proof.
  assert (Scenario.get (λ _, Scenario.reset)
          = (inl (UnboundLocalError "response"),
             advance (Scenario.prepared (λ _, Scenario.reset)) 3
               [Scenario.get_me "app"; Sleep (Seconds 1);
                Scenario.get_me "app"; Sleep (Seconds 3);
                Scenario.get_me "app"; Sleep (Seconds 5)])) as ->.
  { apply (connection_resets_exhaust (Scenario.env (λ _, Scenario.reset))
             Scenario.me None None VNone Scenario.world
             (Scenario.bearer "app") _ 54 54 54); try reflexivity.
    repeat constructor. }
  repeat split; try (vm_compute; reflexivity).
  discriminate.
Qed.

(** C4 on a transport that answers 413. *)
Lemma C4_payload_too_large_immediate_witness :
  Scenario.get (λ _, Scenario.too_large)
  = (inl (RequestEntityTooLarge {| status := 413; headers := [] |}
            too_large_payload),
     advance (Scenario.prepared (λ _, Scenario.too_large)) 1
       [Scenario.get_me "app"])
  ∧ getitem too_large_payload "message"
    = inr (VStr "Request entity too large.").
Proof.
  eapply (C4_payload_too_large_immediate
           (Scenario.env (λ _, Scenario.too_large))
           Scenario.me None None VNone Scenario.world (Scenario.bearer "app")
           (Scenario.prepared (λ _, Scenario.too_large)) _
           (VStr "<html>413</html>")); reflexivity.
Defined.

(** C5 on a transport that answers 404 with an error message. *)
Lemma C5_mapped_error_immediate_witness :
  Scenario.get (λ _, Scenario.not_found)
  = (inl (MappedError "NotFound" {| status := 404; headers := [] |}
            (VDict {[ "message" := VStr "not found" ]})),
     advance (Scenario.prepared (λ _, Scenario.not_found)) 1
       [Scenario.get_me "app"]).
Proof.
  eapply (C5_mapped_error_immediate
           (Scenario.env (λ _, Scenario.not_found))
           Scenario.me None None VNone Scenario.world (Scenario.bearer "app")
           (Scenario.prepared (λ _, Scenario.not_found)) _
           {[ "error" := VDict {[ "message" := VStr "not found" ]} ]});
    try reflexivity.
  unfold special_status, success_status, transient_status; simpl; lia.
Defined.

(** C5, as it is written, fails for a 404 whose body holds an empty
    [error] object: the entry is there but falsy, so nothing is raised in
    the loop; the exchange is made three times and the call ends in the
    generic [HTTPError], not in the class mapped to 404. *)
Lemma C5_empty_error_entry_not_mapped :
  (Scenario.get (λ _, Scenario.empty_error)).1
  = inl (HTTPError {| status := 404; headers := [] |} (VDict ∅))
  ∧ Scenario.attempts_made (trace (Scenario.get (λ _, Scenario.empty_error)).2)
    = 3%nat
  ∧ Scenario.spec_EXCEPTION_MAPPING !! 404 = Some "NotFound"
  ∧ (Scenario.get (λ _, Scenario.empty_error)).1
    ≠ inl (MappedError "NotFound" {| status := 404; headers := [] |}
             (VDict ∅)).
Proof.
  repeat split; try (vm_compute; reflexivity).
  vm_compute. discriminate.
Qed.

(** ** Credentials on the concrete client *)

(** A call with a user's expired credentials on the fresh client: the
    client's own credentials are created, the user's are asked and
    refreshed once, the exchange carries the token they hold after the
    refresh, and they are left refreshed. *)
Lemma expired_user_credentials_are_refreshed :
  trace (request (Scenario.env (λ _, Scenario.ok)) Scenario.me (Some 0%nat)
           None VNone Scenario.world).2
  = [NewSession; FromClientSecret "id" "secret"; IsExpired 0%nat true;
     Refresh 0%nat; Scenario.get_me "user+"]
  ∧ heap (request (Scenario.env (λ _, Scenario.ok)) Scenario.me (Some 0%nat)
            None VNone Scenario.world).2 0%nat
    = ("user+", false).
Proof. split; vm_compute; reflexivity. Qed.

(** ** Routes and validation on concrete input *)

(** C7 for the tracks of an album, with a text and a number to insert. *)
Lemma C7_route_substitution_witness :
  Route_init Scenario.str_of GET "/albums/{id}/tracks/{page}"
    Scenario.album_arguments
  = inr {| method := GET; path := "/albums/{id}/tracks/{page}";
           url := "https://api.spotify.com/v1/albums/4%20u/tracks/2" |}
  ∧ (first_absent Scenario.album_arguments Scenario.album_tracks = None
     ↔ ∀ name, Placeholder name ∈ Scenario.album_tracks ->
               is_Some (Scenario.album_arguments !! name)).
Proof.
  apply (C7_route_substitution Scenario.str_of GET Scenario.album_tracks
           Scenario.album_arguments).
  - intros H. apply (f_equal size) in H. vm_compute in H. discriminate.
  - repeat constructor.
Defined.

(** C7, as it is written, fails for a template with a closing brace on its
    own: the only name it refers to, [id], has a value in the map, and yet
    construction fails, with the [ValueError] of [format_map]. *)
Lemma C7_lone_brace_fails_with_every_name_supplied :
  Route_init Scenario.str_of GET "/albums/{id}/}" {[ "id" := VStr "4 u" ]}
  = inl (ValueError "Single '}' encountered in format string")
  ∧ ({[ "id" := VStr "4 u" ]} : gmap string value) !! "id"
    = Some (VStr "4 u").
Proof. split; vm_compute; reflexivity. Qed.

(** C8 for [get_albums] with 21 ids. *)
Lemma C8_list_bound_checked_before_any_request_witness :
  ∃ msg,
    call (Scenario.env (λ _, Scenario.ok)) ep_get_albums
      (Scenario.args (replicate 21 "4aawyAB9vmqN3uQ7FjRGTy") VNone)
      Scenario.world
    = (inl (ValueError msg), Scenario.world).
Proof.
  apply (C8_list_bound_checked_before_any_request
           (Scenario.env (λ _, Scenario.ok)) ep_get_albums _ 20%nat).
  - reflexivity.
  - simpl. lia.
Defined.

(** C9 for [get_album_tracks]. *)
Lemma C9_zero_limit_is_skipped_witness :
  call (Scenario.env (λ _, Scenario.ok)) ep_get_album_tracks
    (with_limit (VInt 0) (Scenario.args [] VNone)) Scenario.world
  = call (Scenario.env (λ _, Scenario.ok)) ep_get_album_tracks
      (with_limit VNone (Scenario.args [] VNone)) Scenario.world
  ∧ (∀ check,
       call (with_limit_value check (Scenario.env (λ _, Scenario.ok)))
         ep_get_album_tracks (with_limit (VInt 0) (Scenario.args [] VNone))
         Scenario.world
       = call (Scenario.env (λ _, Scenario.ok)) ep_get_album_tracks
           (with_limit (VInt 0) (Scenario.args [] VNone)) Scenario.world)
  ∧ sends_no_limit
      (call (Scenario.env (λ _, Scenario.ok)) ep_get_album_tracks
         (with_limit (VInt 0) (Scenario.args [] VNone))).
Proof.
  apply (C9_zero_limit_is_skipped (Scenario.env (λ _, Scenario.ok))
           ep_get_album_tracks (Scenario.args [] VNone) Scenario.world).
  - reflexivity.
  - simpl. apply not_elem_of_nil.
Defined.

(** * Further properties *)

(** ** The session *)

Section Lifecycle.

Context {C : Type} (E : Env C).

Ltac run :=
  unfold close, _get_credentials, _ensure_session_exists, get_self,
    set_self, read, write, alloc, emit, raise, lift, mbind, M_bind, bind,
    mret, M_ret, ret; simpl.

(** X1: [close] never raises, and closing again changes nothing: the
    second call finds no open session, so it closes nothing and leaves the
    client and the trace as they are. *)
Theorem X1_close_twice (w : World C) :
  ∃ w1, close w = (inr tt, w1)
        ∧ close w1 = (inr tt, w1)
        ∧ (∀ s, _session (self w1) = Some s -> closed s = true).
Proof.
  run. destruct (_session (self w)) as [[[|]]|] eqn:Hs; simpl.
  - exists w. rewrite Hs. repeat split. intros s [= <-]. reflexivity.
  - eexists. repeat split. simpl. intros s [=].
  - exists w. rewrite Hs. repeat split. intros s [=].
Qed.

(** X2: after [_ensure_session_exists] the client holds an open session,
    whatever it held before, and ensuring again does nothing: no second
    session is made. *)
Theorem X2_ensure_session_once (w : World C) :
  ∃ w1, _ensure_session_exists w = (inr tt, w1)
        ∧ _session (self w1) = Some {| closed := false |}
        ∧ _ensure_session_exists w1 = (inr tt, w1).
Proof.
  run. destruct (_session (self w)) as [[[|]]|] eqn:Hs; simpl.
  - eexists. repeat split.
  - exists w. rewrite Hs. repeat split.
  - eexists. repeat split.
Qed.

(** X3: a session is always made anew after [close]: whether [close] had
    an open session to close or not, the next [_ensure_session_exists]
    creates one, and the client then holds an open session. *)
Theorem X3_session_recreated_after_close (w : World C) :
  ∃ w1 w2 closing,
    close w = (inr tt, w1)
    ∧ _ensure_session_exists w1 = (inr tt, w2)
    ∧ trace w2 = (trace w ++ closing ++ [NewSession])%list
    ∧ (closing = [CloseSession] ∨ closing = [])
    ∧ (closing = [CloseSession]
       ↔ ∃ s, _session (self w) = Some s ∧ closed s = false)
    ∧ _session (self w2) = Some {| closed := false |}.
Proof.
  run. destruct (_session (self w)) as [[[|]]|] eqn:Hs; simpl.
  - eexists _, _, []. split; [reflexivity|]. rewrite Hs; simpl.
    split; [reflexivity|]. simpl. repeat split; eauto.
    + intros [=].
    + intros (s & [= <-] & [=]).
  - eexists _, _, [CloseSession]. split; [reflexivity|]. simpl.
    split; [reflexivity|]. simpl. rewrite <- app_assoc.
    repeat split; eauto.
  - eexists _, _, []. split; [reflexivity|]. rewrite Hs; simpl.
    split; [reflexivity|]. simpl. repeat split; eauto.
    + intros [=].
    + intros (s & [=] & _).
Qed.

(** ** The client's own credentials *)

(** X4: the client's own credentials are made at most once: after a call
    of [_get_credentials] that returned, a further call, with or without
    caller credentials, makes none; it only asks the effective credentials
    whether they are expired (and refreshes them if so), and the client
    keeps the credentials it had. *)
Theorem X4_fallback_created_once credentials1 credentials2 (w : World C) l1 :
  (_get_credentials E credentials1 w).1 = inr l1 ->
  ∃ own l b,
    _client_credentials (self (_get_credentials E credentials1 w).2)
    = Some own
    ∧ trace (_get_credentials E credentials2
               (_get_credentials E credentials1 w).2).2
      = (trace (_get_credentials E credentials1 w).2
         ++ expiry_check l b)%list
    ∧ _client_credentials
        (self (_get_credentials E credentials2
                 (_get_credentials E credentials1 w).2).2)
      = Some own.
Proof.
  assert (∀ credentials (w0 : World C) own,
            _client_credentials (self w0) = Some own ->
            ∃ l b,
              trace (_get_credentials E credentials w0).2
              = (trace w0 ++ expiry_check l b)%list
              ∧ _client_credentials
                  (self (_get_credentials E credentials w0).2) = Some own)
    as Hcached.
  { intros credentials w0 own Hown. run. rewrite Hown; simpl.
    exists (default own credentials).
    exists (is_expired E (heap w0 (default own credentials))).
    destruct (is_expired E _); simpl;
      try destruct (refresh E _).2; simpl; rewrite <- ?app_assoc; eauto. }
  intros H1.
  assert (∃ own, _client_credentials
                   (self (_get_credentials E credentials1 w).2) = Some own)
    as [own Hown].
  { revert H1. run.
    destruct (_client_credentials (self w)) as [l0|] eqn:Hc; simpl.
    - destruct (is_expired E _); simpl;
        try destruct (refresh E _).2; simpl; rewrite ?Hc; eauto.
    - destruct (from_client_secret E _ _) as [e|s]; simpl; [intros [=]|].
      destruct (is_expired E _); simpl;
        try destruct (refresh E _).2; simpl; eauto. }
  destruct (Hcached credentials2 _ own Hown) as (l & b & Ht & Hs).
  exists own, l, b. eauto.
Qed.

(** X5: the client's own credentials are obtained before anything else,
    also when the caller brings credentials: while the client has none,
    a failure of [from_client_secret] ends [request] with that failure,
    and no exchange is made. *)
Theorem X5_own_credentials_come_first
  route credentials parameters data (w : World C) e :
  _client_credentials (self w) = None ->
  from_client_secret E (_client_id (self w)) (_client_secret (self w))
  = inl e ->
  ∃ w' session,
    request E route credentials parameters data w = (inl e, w')
    ∧ exchanges w' = exchanges w
    ∧ trace w'
      = (trace w ++ session
         ++ [FromClientSecret (_client_id (self w))
               (_client_secret (self w))])%list
    ∧ (session = [] ∨ session = [NewSession]).
Proof.
  intros Hc He. unfold request, prepare. run.
  destruct (_session (self w)) as [[[|]]|] eqn:Hs; simpl;
    rewrite ?Hs, ?Hc; simpl; rewrite ?He; simpl.
  - eexists _, [NewSession]. rewrite <- app_assoc. repeat split; eauto.
  - eexists _, []. repeat split; eauto.
  - eexists _, [NewSession]. rewrite <- app_assoc. repeat split; eauto.
Qed.

(** X6: [_get_credentials] changes no credentials object but the effective
    one: every other object that existed before the call is in the state
    it was in. *)
Theorem X6_only_effective_credentials_change credentials (w : World C) l' :
  (l' < next_loc w)%nat ->
  (∀ l, effective credentials (self (_get_credentials E credentials w).2) l
        -> l' ≠ l) ->
  heap (_get_credentials E credentials w).2 l' = heap w l'.
Proof.
  intros Hlt. run.
  destruct (_client_credentials (self w)) as [l0|] eqn:Hc; simpl.
  - destruct credentials as [l|]; simpl;
      (destruct (is_expired E (heap w _)); simpl;
       [destruct (refresh E (heap w _)).2; simpl|]);
      rewrite ?Hc; intros Hne; try reflexivity;
      match goal with
      | |- (if Nat.eqb l' ?x then _ else _) = _ =>
          destruct (Nat.eqb_spec l' x) as [->|]; [|done];
          by destruct (Hne x)
      end.
  - destruct (from_client_secret E _ _) as [e|s]; simpl; [done|].
    assert (Nat.eqb l' (next_loc w) = false) as Hfresh
      by (apply Nat.eqb_neq; lia).
    destruct credentials as [l|]; simpl; rewrite ?Nat.eqb_refl;
      (destruct (is_expired E _); simpl;
       [destruct (refresh E _).2; simpl|]);
      intros Hne; rewrite ?Hfresh; try reflexivity;
      match goal with
      | |- (if Nat.eqb l' ?x then _ else _) = _ =>
          destruct (Nat.eqb_spec l' x) as [->|]; [|done];
          by destruct (Hne x)
      end.
Qed.

End Lifecycle.

(** ** More on the retry loop *)

Section Loop.

Context {C : Type} (E : Env C).
Variables (route : Route) (hdrs : gmap string string)
  (parameters : option (gmap string value)) (data : value).

Let sent := attempt_event E route hdrs parameters data.
Let iteration_of (tries : Z) (locals : option (Response * value)) :=
  try_except (try_body E route hdrs parameters data tries locals)
    (except_OSError tries locals).

Ltac run_iteration Ht :=
  unfold iteration_of, try_except, try_body;
  unfold mbind, M_bind, bind; rewrite exchange_run, Ht; cbv beta iota.

Ltac same_world :=
  unfold advance, sleep, emit, raise, lift, mbind, M_bind, bind, mret,
    M_ret, ret; simpl; rewrite <- ?app_assoc; reflexivity.

Lemma iteration_raised tries locals (w : World C) e :
  transport E (exchanges w) = Raised e ->
  ¬ recoverable e ->
  iteration_of tries locals w = (inl e, advance w 1 [sent]).
Proof.
  intros Ht Hn. run_iteration Ht. unfold raise, except_OSError.
  destruct e as [| | | | | | |errno| | | | |]; try same_world.
  assert (errno_in errno [54; 10054] = false) as ->.
  { destruct errno as [n|]; [|done]. simpl in *.
    destruct (Z.eqb_spec n 54); [tauto|].
    destruct (Z.eqb_spec n 10054); [tauto|]. done. }
  rewrite andb_false_r. same_world.
Qed.

Lemma iteration_rate_limit_header tries locals (w : World C) r d :
  transport E (exchanges w) = Responded r d ->
  status r = 429 ->
  iteration_of tries locals w
  = (match headers_getitem (headers r) "Retry-After" with
     | None => inl (KeyError (VStr "Retry-After"))
     | Some text =>
         if float_parses E text then inr (Next (Some (r, d)))
         else inl (ValueError "could not convert string to float")
     end,
     advance w 1
       (sent :: match headers_getitem (headers r) "Retry-After" with
                | Some text =>
                    if float_parses E text then [Sleep (FloatOf text)]
                    else []
                | None => []
                end)).
Proof.
  intros Ht Hs. run_iteration Ht. rewrite Hs.
  cbn [Z.leb Z.ltb Z.eqb Z.compare Pos.compare Pos.compare_cont Pos.eqb andb].
  destruct (headers_getitem _ _) as [text|]; [|same_world].
  destruct (float_parses E text); same_world.
Qed.

Lemma iteration_by_body tries locals (w : World C) r d :
  transport E (exchanges w) = Responded r d ->
  ¬ special_status (status r) ->
  iteration_of tries locals w
  = (match dict_get d "error" with
     | inl e => inl e
     | inr error =>
         if truthy error then
           match EXCEPTION_MAPPING E !! status r with
           | Some cls => inl (MappedError cls r error)
           | None => inl (KeyError (VInt (status r)))
           end
         else inr (Next (Some (r, d)))
     end,
     advance w 1 [sent]).
Proof.
  intros Ht Hs. run_iteration Ht.
  destruct (not_special_tests _ Hs) as (-> & -> & -> & ->).
  unfold lift, dict_get. cbv beta iota.
  destruct d as [| | | | |m]; try same_world.
  destruct (m !! "error") as [error|]; [|same_world].
  destruct (truthy error); [|same_world].
  destruct (_ !! _); same_world.
Qed.

(** What one iteration leaves in the trace: its attempt, and at most one
    sleep, of the backoff for this value of [tries] or of a rate limit. *)
Lemma iteration_events tries locals (w : World C) :
  ∃ tail,
    (iteration_of tries locals w).2 = advance w 1 (sent :: tail)
    ∧ (tail = [] ∨ tail = [Sleep (Seconds (1 + tries * 2))]
       ∨ ∃ text, tail = [Sleep (FloatOf text)]).
Proof.
  destruct (transport E (exchanges w)) as [e|r d] eqn:Ht.
  - run_iteration Ht. unfold raise, except_OSError.
    destruct e; try (exists []; split; [same_world | eauto]).
    destruct (_ && _).
    + exists [Sleep (Seconds (1 + tries * 2))]. split; [same_world | eauto].
    + exists []. split; [same_world | eauto].
  - run_iteration Ht.
    destruct (_ && _); [exists []; split; [same_world | eauto]|].
    destruct (_ =? 413); [exists []; split; [same_world | eauto]|].
    destruct (_ =? 429).
    { destruct (headers_getitem _ _) as [text|];
        [|exists []; split; [same_world | eauto]].
      destruct (float_parses E text);
        [|exists []; split; [same_world | eauto]].
      exists [Sleep (FloatOf text)]. split; [same_world | eauto]. }
    destruct (existsb _ _).
    { exists [Sleep (Seconds (1 + tries * 2))]. split; [same_world | eauto]. }
    unfold lift, dict_get, mbind, M_bind, bind.
    destruct d as [| | | | |m]; try (exists []; split; [same_world | eauto]).
    destruct (m !! "error") as [error|];
      [|exists []; split; [same_world | eauto]].
    destruct (truthy error); [|exists []; split; [same_world | eauto]].
    destruct (_ !! _); exists []; (split; [same_world | eauto]).
Qed.

Lemma attempts_in_app evs evs' :
  attempts_in (evs ++ evs') = (attempts_in evs + attempts_in evs')%nat.
Proof. unfold attempts_in. by rewrite List.filter_app, length_app. Qed.

Lemma backoffs_app evs evs' :
  backoffs (evs ++ evs') = (backoffs evs ++ backoffs evs')%list.
Proof. unfold backoffs. by rewrite omap_app. Qed.

Lemma for_tries_bounded range locals (w : World C) :
  ∃ evs,
    (for_tries E route hdrs parameters data range locals w).2
    = advance w (attempts_in evs) evs
    ∧ (attempts_in evs <= length range)%nat
    ∧ sublist (backoffs evs) ((λ tries, 1 + tries * 2) <$> range).
Proof.
  revert locals w. induction range as [|tries range IH]; intros locals w.
  - exists []. simpl. rewrite advance_0.
    split; [reflexivity|]. split; [cbn; lia | constructor].
  - rewrite for_tries_cons. fold (iteration_of tries locals).
    destruct (iteration_events tries locals w) as (tail & Hw & Htail).
    assert (attempts_in (sent :: tail) = 1%nat
            ∧ sublist (backoffs (sent :: tail)) [1 + tries * 2])
      as [Hone Hback].
    { destruct Htail as [-> | [-> | [text ->]]]; split; try reflexivity;
        cbn; repeat constructor. }
    destruct (iteration_of tries locals w) as [[e|[v|locals']] w'];
      simpl in Hw; subst w'.
    + exists (sent :: tail). rewrite Hone.
      split; [reflexivity|]. split; [simpl length; lia|].
      rewrite fmap_cons. exact (sublist_inserts_r _ _ _ Hback).
    + exists (sent :: tail). rewrite Hone.
      split; [reflexivity|]. split; [simpl length; lia|].
      rewrite fmap_cons. exact (sublist_inserts_r _ _ _ Hback).
    + destruct (IH locals' (advance w 1 (sent :: tail)))
        as (evs & -> & Hn & Hsub).
      exists ((sent :: tail) ++ evs)%list.
      rewrite advance_advance, attempts_in_app, backoffs_app, Hone.
      replace (attempts_in evs + 1)%nat with (1 + attempts_in evs)%nat by lia.
      split; [reflexivity|]. split; [simpl length; lia|].
      rewrite fmap_cons. exact (sublist_app _ _ _ _ Hback Hsub).
Qed.

End Loop.

Section LoopProperties.

Context {C : Type} (E : Env C).
Variables (route : Route) (credentials : option loc)
  (parameters : option (gmap string value)) (data : value).

Ltac run :=
  unfold prepare, _get_credentials, _ensure_session_exists, get_self,
    set_self, read, write, alloc, emit, raise, lift, mbind, M_bind, bind,
    mret, M_ret, ret; simpl.

(** Before the loop nothing is exchanged and nothing is slept. *)
Lemma prepare_quiet (w : World C) :
  ∃ evs,
    trace (prepare E credentials w).2 = (trace w ++ evs)%list
    ∧ exchanges (prepare E credentials w).2 = exchanges w
    ∧ attempts_in evs = 0%nat
    ∧ backoffs evs = [].
Proof.
  run.
  destruct (_session (self w)) as [[[|]]|] eqn:Hs; simpl;
    rewrite ?Hs; simpl;
    (destruct (_client_credentials (self w)) as [l0|]; simpl;
     [|destruct (from_client_secret E _ _) as [e|s]; simpl]);
    try (destruct credentials as [l|]; simpl; rewrite ?Nat.eqb_refl;
         (destruct (is_expired E _); simpl;
          [destruct (refresh E _).2; simpl|]));
    rewrite <- ?app_assoc;
    try (eexists; split; [reflexivity|]; repeat split; reflexivity);
    exists []; rewrite app_nil_r; repeat split; reflexivity.
Qed.

(** X7: [request] attempts at most three exchanges, whatever the transport
    answers or raises, and its backoff sleeps are some of 1, 3 and 5
    seconds, in this order, each at most once (so at most 9 seconds in
    all; the waits of a rate limit come on top). *)
Theorem X7_at_most_three_attempts (w : World C) :
  ∃ evs,
    trace (request E route credentials parameters data w).2
    = (trace w ++ evs)%list
    ∧ exchanges (request E route credentials parameters data w).2
      = (attempts_in evs + exchanges w)%nat
    ∧ (attempts_in evs <= 3)%nat
    ∧ sublist (backoffs evs) [1; 3; 5].
Proof.
  destruct (prepare_quiet w) as (evs0 & Ht & Hx & Ha & Hb).
  unfold request, mbind, M_bind, bind.
  destruct (prepare E credentials w) as [[e|hdrs] w1]; simpl in *.
  - exists evs0. rewrite Ha, Hb. repeat split; try done; [lia|].
    apply sublist_nil_l.
  - destruct (for_tries_bounded E route hdrs parameters data [0; 1; 2] None w1)
      as (evs & Hw & Hn & Hsub).
    assert ((attempts E route hdrs parameters data w1).2
            = advance w1 (attempts_in evs) evs) as ->.
    { rewrite attempts_run.
      destruct (for_tries _ _ _ _ _ _ _ w1) as [[e|[v|locals]] w'];
        simpl in Hw; subst w'; by rewrite ?after_loop_world. }
    exists (evs0 ++ evs)%list.
    rewrite attempts_in_app, backoffs_app, Ha, Hb.
    unfold advance; simpl. rewrite Ht, Hx, <- app_assoc.
    repeat split; done.
Qed.

(** X8: every attempt of one call of [request] is the same exchange: the
    method and url of the route, the headers built once before the loop,
    the query parameters as given, and as body the serialized [data] when
    [data] is truthy and no body at all when it is falsy (an empty dict
    or list, zero, an empty text, [None]). *)
Theorem X8_retries_repeat_the_request (w : World C) :
  ∃ hdrs evs,
    trace (request E route credentials parameters data w).2
    = (trace w ++ evs)%list
    ∧ Forall (λ ev, is_attempt ev = true ->
                    ev = SessionRequest (method route) (url route) hdrs
                           parameters
                           (if truthy data then Some (json_dumps E data)
                            else None)) evs.
Proof.
  destruct (prepare_shape E credentials w) as (evs0 & Ht & Hevs0 & _).
  unfold request, mbind, M_bind, bind.
  destruct (prepare E credentials w) as [[e|hdrs] w1]; simpl in *.
  - exists ∅, evs0. split; [done|].
    eapply Forall_impl; [exact Hevs0|]. intros ev -> [=].
  - destruct (attempts_shape E route hdrs parameters data w1)
      as (n & evs & -> & Hevs).
    exists hdrs, (evs0 ++ evs)%list. unfold advance; simpl.
    rewrite Ht, <- app_assoc. split; [done|].
    apply Forall_app. split.
    + eapply Forall_impl; [exact Hevs0|]. intros ev -> [=].
    + eapply Forall_impl; [exact Hevs|].
      intros ev [-> | [d ->]]; [done | intros [=]].
Qed.

(** X9: a first response with a status from 200 to 299 ends [request] at
    once: the decoded body is returned as it is, after that one exchange
    and without a sleep, whatever the body is (an [error] entry in it is
    not looked at). *)
Theorem X9_success_returns_body (w : World C) hdrs w1 r body :
  prepare E credentials w = (inr hdrs, w1) ->
  transport E (exchanges w1) = Responded r body ->
  success_status (status r) ->
  request E route credentials parameters data w
  = (inr body, advance w1 1 [attempt_event E route hdrs parameters data]).
Proof.
  intros Hp Ht Hs.
  rewrite (request_run E route credentials parameters data _ _ _ Hp).
  rewrite attempts_run.
  by rewrite (for_tries_success E route parameters data _ _ _ _ _ _ _ Ht Hs).
Qed.

(** X10: an exception of the transport that is not an [OSError] with errno
    54 or 10054 is not retried: [request] raises it as it is after the
    one attempt, without a sleep. *)
Theorem X10_other_transport_errors_propagate (w : World C) hdrs w1 e :
  prepare E credentials w = (inr hdrs, w1) ->
  transport E (exchanges w1) = Raised e ->
  ¬ recoverable e ->
  request E route credentials parameters data w
  = (inl e, advance w1 1 [attempt_event E route hdrs parameters data]).
Proof.
  intros Hp Ht Hn.
  rewrite (request_run E route credentials parameters data _ _ _ Hp).
  rewrite attempts_run, for_tries_cons.
  by rewrite (iteration_raised E route hdrs parameters data _ _ _ _ Ht Hn).
Qed.

(** X11: a 429 response is only waited out when it has a [Retry-After]
    header that [float] accepts.  Without the header [request] raises
    [KeyError], with a header that is not a number it raises the
    [ValueError] of [float]; either way at once, without sleeping. *)
Theorem X11_rate_limit_needs_retry_after (w : World C) hdrs w1 r d :
  prepare E credentials w = (inr hdrs, w1) ->
  transport E (exchanges w1) = Responded r d ->
  status r = 429 ->
  (headers_getitem (headers r) "Retry-After" = None ->
   request E route credentials parameters data w
   = (inl (KeyError (VStr "Retry-After")),
      advance w1 1 [attempt_event E route hdrs parameters data]))
  ∧ (∀ text,
       headers_getitem (headers r) "Retry-After" = Some text ->
       float_parses E text = false ->
       request E route credentials parameters data w
       = (inl (ValueError "could not convert string to float"),
          advance w1 1 [attempt_event E route hdrs parameters data])).
Proof.
  intros Hp Ht Hs.
  rewrite (request_run E route credentials parameters data _ _ _ Hp).
  rewrite attempts_run, for_tries_cons.
  rewrite (iteration_rate_limit_header E route hdrs parameters data
             _ _ _ _ _ Ht Hs).
  split.
  - by intros ->.
  - by intros text -> ->.
Qed.

(** X12: an error response whose decoded body is not an object (text, a
    list, a number, null) makes [request] raise [AttributeError] after
    the one exchange: the body is asked for its [error] entry with
    [.get]. *)
Theorem X12_error_body_must_be_object (w : World C) hdrs w1 r d :
  prepare E credentials w = (inr hdrs, w1) ->
  transport E (exchanges w1) = Responded r d ->
  ¬ special_status (status r) ->
  (∀ m, d ≠ VDict m) ->
  request E route credentials parameters data w
  = (inl AttributeError,
     advance w1 1 [attempt_event E route hdrs parameters data]).
Proof.
  intros Hp Ht Hs Hd.
  rewrite (request_run E route credentials parameters data _ _ _ Hp).
  rewrite attempts_run, for_tries_cons.
  rewrite (iteration_by_body E route hdrs parameters data _ _ _ _ _ Ht Hs).
  destruct d as [| | | | |m]; try reflexivity. by destruct (Hd m).
Qed.

(** X13: when the body has a truthy [error] entry but the status is no
    key of [EXCEPTION_MAPPING], [request] raises [KeyError] for the
    status, after the one exchange. *)
Theorem X13_unmapped_status_is_key_error (w : World C) hdrs w1 r m error :
  prepare E credentials w = (inr hdrs, w1) ->
  transport E (exchanges w1) = Responded r (VDict m) ->
  ¬ special_status (status r) ->
  m !! "error" = Some error ->
  truthy error = true ->
  EXCEPTION_MAPPING E !! status r = None ->
  request E route credentials parameters data w
  = (inl (KeyError (VInt (status r))),
     advance w1 1 [attempt_event E route hdrs parameters data]).
Proof.
  intros Hp Ht Hs Hm Htr Hk.
  rewrite (request_run E route credentials parameters data _ _ _ Hp).
  rewrite attempts_run, for_tries_cons.
  rewrite (iteration_by_body E route hdrs parameters data _ _ _ _ _ Ht Hs).
  simpl. by rewrite Hm, Htr, Hk.
Qed.

(** X14: when three transient errors (500, 502, 503) use up the loop and
    the last decoded body has no [error] entry to read, the call does not
    end in [HTTPError] but in the error of the failed subscript:
    [KeyError] for an object without the entry, [TypeError] for a body
    that is no object (text, for one). *)
Theorem X14_exhausted_without_error_entry
  (w : World C) hdrs w1 r1 d1 r2 d2 r3 d3 :
  prepare E credentials w = (inr hdrs, w1) ->
  transport E (exchanges w1) = Responded r1 d1 ->
  transient_status (status r1) ->
  transport E (1 + exchanges w1) = Responded r2 d2 ->
  transient_status (status r2) ->
  transport E (2 + exchanges w1) = Responded r3 d3 ->
  transient_status (status r3) ->
  (∀ m, d3 = VDict m -> m !! "error" = None) ->
  let sent := attempt_event E route hdrs parameters data in
  request E route credentials parameters data w
  = (inl (match d3 with
          | VDict _ => KeyError (VStr "error")
          | _ => TypeError
          end),
     advance w1 3 [sent; Sleep (Seconds 1); sent; Sleep (Seconds 3);
                   sent; Sleep (Seconds 5)]).
Proof.
  intros Hp H1 S1 H2 S2 H3 S3 Hd sent.
  rewrite (request_run E route credentials parameters data _ _ _ Hp).
  rewrite attempts_run.
  rewrite for_tries_cons, (iteration_transient E _ _ _ _ _ _ _ _ _ H1 S1).
  rewrite for_tries_cons.
  rewrite (iteration_transient E _ _ _ _ 1 _ (advance w1 1 _) _ _ H2 S2).
  rewrite advance_advance, for_tries_cons.
  rewrite (iteration_transient E _ _ _ _ 2 _ (advance w1 2 _) _ _ H3 S3).
  rewrite advance_advance.
  unfold for_tries, after_loop, Response_bool, lift, raise, getitem.
  unfold mret, M_ret, ret, mbind, M_bind, bind.
  destruct d3 as [| | | | |m]; try reflexivity.
  by rewrite (Hd m eq_refl).
Qed.

(** X15: an error response that [request] can make nothing of (a status
    that is none of 2xx, 413, 429, 500, 502, 503, and an object body whose
    [error] entry is missing or falsy) is asked for again at once: three
    such responses make three attempts without any sleep between them,
    and the call ends in [HTTPError] with the last falsy entry, or in
    [KeyError] when there is none. *)
Theorem X15_uninformative_errors_retried_without_pause
  (w : World C) hdrs w1 r1 m1 r2 m2 r3 m3 :
  prepare E credentials w = (inr hdrs, w1) ->
  ordinary_error (transport E (exchanges w1)) r1 (VDict m1) ->
  ordinary_error (transport E (1 + exchanges w1)) r2 (VDict m2) ->
  ordinary_error (transport E (2 + exchanges w1)) r3 (VDict m3) ->
  Forall (λ m : gmap string value,
            truthy (default VNone (m !! "error")) = false) [m1; m2; m3] ->
  let sent := attempt_event E route hdrs parameters data in
  request E route credentials parameters data w
  = (inl (match m3 !! "error" with
          | Some error => HTTPError r3 error
          | None => KeyError (VStr "error")
          end),
     advance w1 3 [sent; sent; sent]).
Proof.
  intros Hp [H1 S1] [H2 S2] [H3 S3] Hall sent.
  apply Forall_cons in Hall as [F1 Hall].
  apply Forall_cons in Hall as [F2 Hall].
  apply Forall_cons in Hall as [F3 _].
  rewrite (request_run E route credentials parameters data _ _ _ Hp).
  rewrite attempts_run.
  rewrite for_tries_cons.
  rewrite (iteration_falls_through E _ _ _ _ _ _ _ _ _ H1 S1 F1).
  rewrite for_tries_cons.
  rewrite (iteration_falls_through E _ _ _ _ 1 _ (advance w1 1 _) _ _
             H2 S2 F2).
  rewrite advance_advance, for_tries_cons.
  rewrite (iteration_falls_through E _ _ _ _ 2 _ (advance w1 2 _) _ _
             H3 S3 F3).
  rewrite advance_advance.
  unfold for_tries, after_loop, Response_bool, lift, raise, getitem.
  unfold mret, M_ret, ret, mbind, M_bind, bind.
  destruct (m3 !! "error"); reflexivity.
Qed.

End LoopProperties.

(** ** More on the endpoint methods *)

Section MoreValidation.

Context {C : Type} (E : Env C).

Lemma request_events_all (P : Event -> Prop) route credentials parameters data :
  (∀ hdrs, P (attempt_event E route hdrs parameters data)) ->
  (∀ ev, is_attempt ev = false -> P ev) ->
  events_all P (request E route credentials parameters data : M C value).
Proof.
  intros Hsent Hother w.
  destruct (prepare_shape E credentials w) as (evs0 & Ht & Hevs0 & _).
  unfold request, mbind, M_bind, bind.
  destruct (prepare E credentials w) as [[e|hdrs] w1]; simpl in *.
  - exists evs0. split; [done|]. eapply Forall_impl; [exact Hevs0|]. done.
  - destruct (attempts_shape E route hdrs parameters data w1)
      as (n & evs & -> & Hevs).
    exists (evs0 ++ evs)%list. unfold advance; simpl.
    rewrite Ht, <- app_assoc. split; [done|].
    apply Forall_app. split.
    + eapply Forall_impl; [exact Hevs0|]. done.
    + eapply Forall_impl; [exact Hevs|].
      intros ev [-> | [d ->]]; [apply Hsent | by apply Hother].
Qed.

Lemma route_events_all (P : Event -> Prop) method path kwargs
  (k : Route -> M C value) :
  (∀ route, Route_init (py_str E) method path kwargs = inr route ->
            events_all P (k route)) ->
  events_all P (new_Route E method path kwargs ≫= k).
Proof.
  intros Hk w. unfold new_Route, lift, mbind, M_bind, bind.
  destruct (Route_init _ _ _ _) as [e|route]; [|by apply Hk].
  exists []. by rewrite app_nil_r.
Qed.

Lemma raise_if_events_all (P : Event -> Prop) c e (m : M C value) :
  events_all P m -> events_all P (raise_if c e ≫= λ _, m).
Proof.
  intros Hm w. unfold raise_if, mbind, M_bind, bind.
  destruct c; [|apply Hm]. exists []. by rewrite app_nil_r.
Qed.

Lemma check_events_all (P : Event -> Prop) r (m : M C value) :
  events_all P m -> events_all P (check r ≫= λ _, m).
Proof.
  intros Hm w. unfold check, mbind, M_bind, bind.
  destruct r; [|apply Hm]. exists []. by rewrite app_nil_r.
Qed.

(** The loop over the extra keyword arguments stops at the first one that
    is not listed, and touches nothing. *)
Lemma add_seed_kwargs_run kwargs parameters (w : World C) :
  add_seed_kwargs E kwargs parameters w
  = (match first_invalid_kwarg (VALID_SEED_KWARGS E) kwargs with
     | Some key => inl (ValueError ("'" ++ key ++ "' is not a valid kwarg."))
     | None => inr (with_kwargs kwargs parameters)
     end, w).
Proof.
  revert parameters. induction kwargs as [|[key v] kwargs IH];
    intros parameters; [reflexivity|].
  simpl. unfold raise_if, mbind, M_bind, bind.
  destruct (existsb _ _); simpl; [apply IH | reflexivity].
Qed.

(** X16: the methods that take two arguments of which only one may be
    given refuse a call with both, with [ValueError] and before anything
    else happens: a playlist both collaborative and public
    ([change_playlist_details], [create_playlist]), a playback of both a
    context and a list of uris ([start_playback]), a history both before
    and after a time ([get_recently_played_tracks]). *)
Theorem X16_exclusive_arguments_rejected (w : World C) :
  (∀ _id name public collaborative description credentials,
     truthy collaborative = true -> truthy public = true ->
     change_playlist_details E _id name public collaborative description
       credentials w
     = (inl (ValueError "collaborative playlists can not be public."), w))
  ∧ (∀ user_id name public collaborative description credentials,
       truthy collaborative = true -> truthy public = true ->
       create_playlist E user_id name public collaborative description
         credentials w
       = (inl (ValueError "collaborative playlists can not be public."), w))
  ∧ (∀ device_id context_uri uris offset position_ms credentials,
       truthy context_uri = true -> truthy_list uris = true ->
       start_playback E device_id context_uri uris offset position_ms
         credentials w
       = (inl (ValueError
                 "'context_uri' and 'uris' can not both be specified."), w))
  ∧ (∀ limit before after credentials,
       truthy before = true -> truthy after = true ->
       get_recently_played_tracks E limit before after credentials w
       = (inl (ValueError
                 "'before' and 'after' can not both be specified."), w)).
Proof.
  repeat split; intros;
    unfold change_playlist_details, create_playlist, start_playback,
      get_recently_played_tracks, raise_if, mbind, M_bind, bind;
    repeat match goal with H : _ = true |- _ => rewrite H; clear H end;
    reflexivity.
Qed.

(** X17: [get_recommendations] refuses a call without any seed, and a call
    with an extra keyword argument that [values.VALID_SEED_KWARGS] does
    not list, naming the first such argument; in both cases with
    [ValueError] and before anything else happens. *)
Theorem X17_recommendations_need_seeds_and_valid_kwargs
  seed_artist_ids seed_genres seed_track_ids limit market credentials kwargs
  (w : World C) :
  (count_seeds seed_artist_ids seed_genres seed_track_ids = 0%nat ->
   get_recommendations E seed_artist_ids seed_genres seed_track_ids limit
     market credentials kwargs w
   = (inl (ValueError "too many or no seed values provided. min 1, max 5."),
      w))
  ∧ (∀ key,
       (1 <= count_seeds seed_artist_ids seed_genres seed_track_ids <= 5)%nat ->
       first_invalid_kwarg (VALID_SEED_KWARGS E) kwargs = Some key ->
       get_recommendations E seed_artist_ids seed_genres seed_track_ids limit
         market credentials kwargs w
       = (inl (ValueError ("'" ++ key ++ "' is not a valid kwarg.")), w)).
Proof.
  split.
  - intros H0. unfold get_recommendations, raise_if, mbind, M_bind, bind.
    by rewrite H0.
  - intros key [Hlo Hhi] Hkey.
    unfold get_recommendations, raise_if, mbind, M_bind, bind.
    assert ((count_seeds seed_artist_ids seed_genres seed_track_ids <? 1)%nat
            || (5 <? count_seeds seed_artist_ids seed_genres
                       seed_track_ids)%nat = false) as ->.
    { apply orb_false_intro; apply Nat.ltb_ge; lia. }
    unfold mret, M_ret, ret. cbv beta iota zeta.
    rewrite add_seed_kwargs_run, Hkey. reflexivity.
Qed.

(** X18: in the methods that check their [limit], a truthy [limit] that
    [utils.limit_value] refuses ends the call before anything else
    happens: no session, no credentials, no exchange.  The call raises
    what [utils.limit_value] raises ([get_recommendations], which checks
    its seeds and extra keyword arguments first, may raise for those
    instead). *)
Theorem X18_refused_limit_stops_the_call ep a lo hi e (w : World C) :
  limit_range ep = Some (lo, hi) ->
  truthy (arg_limit a) = true ->
  limit_value E "limit" (arg_limit a) lo hi = Some e ->
  ∃ e', call E ep a w = (inl e', w)
        ∧ (ep ≠ ep_get_recommendations -> e' = e).
Proof.
  intros Hr Ht Hl.
  destruct ep; simpl in Hr; try discriminate; injection Hr as <- <-;
    unfold call; autounfold with endpoints;
    unfold raise_if, check, mbind, M_bind, bind, mret, M_ret, ret;
    cbv beta zeta; rewrite ?Ht, ?Hl;
    try (exists e; split; [reflexivity | done]).
  destruct (_ || _); [eexists; split; [reflexivity | done]|].
  cbv beta iota. rewrite add_seed_kwargs_run.
  destruct (first_invalid_kwarg _ _);
    [eexists; split; [reflexivity | done]|].
  cbv beta iota. exists e. split; [reflexivity | done].
Qed.

(** X19: [set_playback_volume] checks the volume on every call, 0
    included, and a volume that [utils.limit_value] refuses ends the call
    before anything else happens; a volume that passes is sent as the
    [volume_percent] parameter of every attempt, 0 included. *)
Theorem X19_volume_always_checked_and_sent
  volume_percent device_id credentials (w : World C) :
  (∀ e, limit_value E "volume_percent" (VInt volume_percent) 0 100 = Some e ->
        set_playback_volume E volume_percent device_id credentials w
        = (inl e, w))
  ∧ (limit_value E "volume_percent" (VInt volume_percent) 0 100 = None ->
     ∃ parameters,
       parameters !! "volume_percent" = Some (VInt volume_percent)
       ∧ events_all (carries (Some parameters))
           (set_playback_volume E volume_percent device_id credentials)).
Proof.
  split.
  - intros e He. unfold set_playback_volume, check, mbind, M_bind, bind.
    by rewrite He.
  - intros Hok. unfold set_playback_volume. rewrite Hok.
    eexists. split; [|apply check_events_all, route_events_all;
                       intros route _; by apply request_events_all;
                       [|intros []]].
    destruct (truthy device_id); by simplify_map_eq.
Qed.

(** X20: [resume_playback] passes [offset] and [position_ms] on to
    [start_playback], which reads them only when it is given a context or
    uris, and [resume_playback] gives it neither: the two arguments have
    no effect, and no attempt of the call has a body. *)
Theorem X20_resume_ignores_offset_and_position
  device_id offset position_ms credentials :
  resume_playback E device_id offset position_ms credentials
  = resume_playback E device_id VNone VNone credentials
  ∧ events_all bodiless
      (resume_playback E device_id offset position_ms credentials).
Proof.
  split; [reflexivity|].
  unfold resume_playback, start_playback.
  apply raise_if_events_all, route_events_all. intros route _.
  apply request_events_all; [done | by intros []].
Qed.

(** X21: the paths of [follow_playlist] and [unfollow_playlist] do not
    begin with a slash, so every attempt of theirs goes to a url in which
    the base url runs into the path: [.../v1playlists/<id>/followers]. *)
Theorem X21_playlist_followers_url_lacks_slash _id public credentials :
  events_all
    (sent_to ("https://api.spotify.com/v1playlists/" ++ urllib.quote _id
              ++ "/followers"))
    (follow_playlist E _id public credentials)
  ∧ events_all
      (sent_to ("https://api.spotify.com/v1playlists/" ++ urllib.quote _id
                ++ "/followers"))
      (unfollow_playlist E _id credentials).
Proof.
  assert (∀ method route,
            Route_init (py_str E) method "playlists/{id}/followers"
              {[ "id" := VStr _id ]} = inr route ->
            url route
            = ("https://api.spotify.com/v1playlists/" ++ urllib.quote _id
               ++ "/followers")%string) as Hurl.
  { intros method route.
    change "playlists/{id}/followers"
      with (template [Literal "playlists/"; Placeholder "id";
                      Literal "/followers"]).
    unfold Route_init. rewrite map_size_singleton. simpl negb. cbv iota.
    unfold pystr.format_map.
    change (BASE_URL ++ template [Literal "playlists/"; Placeholder "id";
                                  Literal "/followers"])%string
      with (template [Literal BASE_URL; Literal "playlists/";
                      Placeholder "id"; Literal "/followers"]).
    rewrite format_scan_template by (by repeat constructor).
    simpl first_absent. rewrite lookup_singleton_eq.
    simpl render. rewrite lookup_singleton_eq. intros [= <-]. reflexivity. }
  split.
  - unfold follow_playlist. apply route_events_all. intros route Hroute.
    apply request_events_all; [|by intros []].
    intros hdrs. simpl. by apply Hurl in Hroute.
  - unfold unfollow_playlist. apply route_events_all. intros route Hroute.
    apply request_events_all; [|by intros []].
    intros hdrs. simpl. by apply Hurl in Hroute.
Qed.

(** X22: an optional argument is left out when it is falsy, also where
    the falsy value means something: a [position] of 0 in
    [add_items_to_playlist] (the head of the playlist) and a [public] of
    [False] in [create_playlist], [change_playlist_details] and
    [follow_playlist] (a private playlist) do what not giving the
    argument does. *)
Theorem X22_meaningful_falsy_arguments_dropped :
  (∀ _id uris credentials,
     add_items_to_playlist E _id uris (VInt 0) credentials
     = add_items_to_playlist E _id uris VNone credentials)
  ∧ (∀ user_id name collaborative description credentials,
       create_playlist E user_id name (VBool false) collaborative
         description credentials
       = create_playlist E user_id name VNone collaborative description
           credentials)
  ∧ (∀ _id name collaborative description credentials,
       change_playlist_details E _id name (VBool false) collaborative
         description credentials
       = change_playlist_details E _id name VNone collaborative description
           credentials)
  ∧ (∀ _id credentials,
       follow_playlist E _id (VBool false) credentials
       = follow_playlist E _id VNone credentials).
Proof.
  repeat split; intros;
    unfold add_items_to_playlist, create_playlist, change_playlist_details,
      follow_playlist; simpl; rewrite ?andb_false_r; reflexivity.
Qed.

(** X23: [get_recently_played_tracks] does not check its [limit]: unless
    both [before] and [after] are given, any truthy [limit] is sent as it
    is with every attempt, and [utils.limit_value] plays no part in the
    call. *)
Theorem X23_recent_tracks_limit_unchecked limit before after credentials :
  truthy limit = true ->
  truthy before && truthy after = false ->
  (∃ parameters,
     parameters !! "limit" = Some limit
     ∧ events_all (carries (Some parameters))
         (get_recently_played_tracks E limit before after credentials))
  ∧ ∀ check,
      get_recently_played_tracks (with_limit_value check E) limit before
        after credentials
      = get_recently_played_tracks E limit before after credentials.
Proof.
  intros Hl Hba. split; [|reflexivity].
  unfold get_recently_played_tracks. rewrite Hl, Hba.
  eexists. split; [|apply raise_if_events_all, route_events_all;
                     intros route _; by apply request_events_all;
                     [|intros []]].
  repeat case_match; by simplify_map_eq.
Qed.

End MoreValidation.

(** ** The further properties on the concrete client *)

(** X4 for a call without caller credentials followed by one with the
    user's. *)
Lemma X4_fallback_created_once_witness :
  ∃ l b,
    trace (_get_credentials (Scenario.env (λ _, Scenario.ok)) (Some 0%nat)
             (_get_credentials (Scenario.env (λ _, Scenario.ok)) None
                Scenario.world).2).2
    = (trace (_get_credentials (Scenario.env (λ _, Scenario.ok)) None
                Scenario.world).2 ++ expiry_check l b)%list.
Proof.
  destruct (X4_fallback_created_once (Scenario.env (λ _, Scenario.ok))
              None (Some 0%nat) Scenario.world 1%nat eq_refl)
    as (own & l & b & _ & H & _).
  exists l, b. exact H.
Defined.

(** X5 for a client whose application identity is refused, called with
    the user's credentials. *)
Lemma X5_own_credentials_come_first_witness :
  ∃ w', request (Scenario.env_refusing_client (λ _, Scenario.ok))
          Scenario.me (Some 0%nat) None VNone Scenario.world
        = (inl (CredentialsError "invalid_client"), w')
        ∧ exchanges w' = 0%nat.
Proof.
  destruct (X5_own_credentials_come_first
              (Scenario.env_refusing_client (λ _, Scenario.ok))
              Scenario.me (Some 0%nat) None VNone Scenario.world
              (CredentialsError "invalid_client") eq_refl eq_refl)
    as (w' & session & H & Hx & _).
  exists w'. split; [exact H | exact Hx].
Defined.

(** X6 for the user's credentials while the client makes its own. *)
Lemma X6_only_effective_credentials_change_witness :
  heap (_get_credentials (Scenario.env (λ _, Scenario.ok)) None
          Scenario.world).2 0%nat
  = heap Scenario.world 0%nat.
Proof.
  apply (X6_only_effective_credentials_change
           (Scenario.env (λ _, Scenario.ok)) None Scenario.world 0%nat).
  - simpl. lia.
  - intros l H. vm_compute in H. injection H as <-. lia.
Defined.

(** X9 on a transport that answers 200. *)
Lemma X9_success_returns_body_witness :
  Scenario.get (λ _, Scenario.ok)
  = (inr (VDict {[ "id" := VStr "me" ]}),
     advance (Scenario.prepared (λ _, Scenario.ok)) 1
       [Scenario.get_me "app"]).
Proof.
  eapply (X9_success_returns_body (Scenario.env (λ _, Scenario.ok))
            Scenario.me None None VNone Scenario.world
            (Scenario.bearer "app") (Scenario.prepared (λ _, Scenario.ok)));
    try reflexivity.
  unfold success_status; simpl; lia.
Defined.

(** X10 on a transport that refuses the connection (errno 111). *)
Lemma X10_other_transport_errors_propagate_witness :
  Scenario.get (λ _, Scenario.refused)
  = (inl (OSError (Some 111)),
     advance (Scenario.prepared (λ _, Scenario.refused)) 1
       [Scenario.get_me "app"]).
Proof.
  apply (X10_other_transport_errors_propagate
           (Scenario.env (λ _, Scenario.refused))
           Scenario.me None None VNone Scenario.world
           (Scenario.bearer "app")
           (Scenario.prepared (λ _, Scenario.refused)));
    try reflexivity.
  simpl. lia.
Defined.

(** X11 on a 429 without the header, and on one whose header is a date. *)
Lemma X11_rate_limit_needs_retry_after_witness :
  (Scenario.get (λ _, Scenario.limited_without_header)).1
  = inl (KeyError (VStr "Retry-After"))
  ∧ (Scenario.get (λ _, Scenario.limited_until_date)).1
    = inl (ValueError "could not convert string to float").
Proof.
  split.
  - exact (f_equal fst
             (proj1 (X11_rate_limit_needs_retry_after
                       (Scenario.env (λ _, Scenario.limited_without_header))
                       Scenario.me None None VNone Scenario.world
                       (Scenario.bearer "app")
                       (Scenario.prepared
                          (λ _, Scenario.limited_without_header))
                       _ _ eq_refl eq_refl eq_refl) eq_refl)).
  - exact (f_equal fst
             (proj2 (X11_rate_limit_needs_retry_after
                       (Scenario.env (λ _, Scenario.limited_until_date))
                       Scenario.me None None VNone Scenario.world
                       (Scenario.bearer "app")
                       (Scenario.prepared (λ _, Scenario.limited_until_date))
                       _ _ eq_refl eq_refl eq_refl)
                "Wed, 21 Oct 2026 07:28:00 GMT" eq_refl eq_refl)).
Defined.

(** X12 on a 404 that comes as a page of text. *)
Lemma X12_error_body_must_be_object_witness :
  Scenario.get (λ _, Scenario.not_found_page)
  = (inl AttributeError,
     advance (Scenario.prepared (λ _, Scenario.not_found_page)) 1
       [Scenario.get_me "app"]).
Proof.
  eapply (X12_error_body_must_be_object
            (Scenario.env (λ _, Scenario.not_found_page))
            Scenario.me None None VNone Scenario.world
            (Scenario.bearer "app")
            (Scenario.prepared (λ _, Scenario.not_found_page)));
    try reflexivity.
  - unfold special_status, success_status, transient_status; simpl; lia.
  - intros m. discriminate.
Defined.

(** X13 on a 418, which the mapping of the example does not list. *)
Lemma X13_unmapped_status_is_key_error_witness :
  Scenario.get (λ _, Scenario.teapot)
  = (inl (KeyError (VInt 418)),
     advance (Scenario.prepared (λ _, Scenario.teapot)) 1
       [Scenario.get_me "app"]).
Proof.
  eapply (X13_unmapped_status_is_key_error
            (Scenario.env (λ _, Scenario.teapot))
            Scenario.me None None VNone Scenario.world
            (Scenario.bearer "app")
            (Scenario.prepared (λ _, Scenario.teapot))
            {| status := 418; headers := [] |}
            {[ "error" := VDict {[ "message" := VStr "teapot" ]} ]});
    try reflexivity.
  unfold special_status, success_status, transient_status; simpl; lia.
Defined.

(** X14 on a transport that answers 503 with a page of text every time. *)
Lemma X14_exhausted_without_error_entry_witness :
  Scenario.get (λ _, Scenario.unavailable_page)
  = (inl TypeError,
     advance (Scenario.prepared (λ _, Scenario.unavailable_page)) 3
       [Scenario.get_me "app"; Sleep (Seconds 1);
        Scenario.get_me "app"; Sleep (Seconds 3);
        Scenario.get_me "app"; Sleep (Seconds 5)]).
Proof.
  eapply (X14_exhausted_without_error_entry
            (Scenario.env (λ _, Scenario.unavailable_page))
            Scenario.me None None VNone Scenario.world
            (Scenario.bearer "app")
            (Scenario.prepared (λ _, Scenario.unavailable_page))
            _ _ _ _ _ (VStr "<html>Service Unavailable</html>"));
    try reflexivity; try (right; right; reflexivity).
  intros m. discriminate.
Defined.

(** X15 on a transport that answers 404 with an empty object every time. *)
Lemma X15_uninformative_errors_retried_without_pause_witness :
  Scenario.get (λ _, Scenario.bare_not_found)
  = (inl (KeyError (VStr "error")),
     advance (Scenario.prepared (λ _, Scenario.bare_not_found)) 3
       [Scenario.get_me "app"; Scenario.get_me "app";
        Scenario.get_me "app"]).
Proof.
  assert (¬ special_status 404) as Hs
    by (unfold special_status, success_status, transient_status; lia).
  assert (Forall (λ m : gmap string value,
                    truthy (default VNone (m !! "error")) = false)
            [∅; ∅; ∅]) as Hall by (repeat constructor).
  exact (X15_uninformative_errors_retried_without_pause
           (Scenario.env (λ _, Scenario.bare_not_found))
           Scenario.me None None VNone Scenario.world
           (Scenario.bearer "app")
           (Scenario.prepared (λ _, Scenario.bare_not_found))
           {| status := 404; headers := [] |} ∅
           {| status := 404; headers := [] |} ∅
           {| status := 404; headers := [] |} ∅
           eq_refl (conj eq_refl Hs) (conj eq_refl Hs) (conj eq_refl Hs)
           Hall).
Defined.

(** X16 for a history asked both before and after a time. *)
Lemma X16_exclusive_arguments_rejected_witness :
  get_recently_played_tracks (Scenario.env (λ _, Scenario.ok)) VNone
    (VInt 1700000000000) (VInt 1600000000000) (Some 0%nat) Scenario.world
  = (inl (ValueError "'before' and 'after' can not both be specified."),
     Scenario.world).
Proof.
  apply (proj2 (proj2 (proj2 (X16_exclusive_arguments_rejected
                                (Scenario.env (λ _, Scenario.ok))
                                Scenario.world))));
    reflexivity.
Defined.

(** X17 for a call without seeds, and for one with the extra keyword
    argument [tempo]. *)
Lemma X17_recommendations_need_seeds_and_valid_kwargs_witness :
  get_recommendations (Scenario.env (λ _, Scenario.ok)) None (Some []) None
    VNone VNone None [] Scenario.world
  = (inl (ValueError "too many or no seed values provided. min 1, max 5."),
     Scenario.world)
  ∧ get_recommendations (Scenario.env (λ _, Scenario.ok)) None
      (Some ["jazz"]) None VNone VNone None
      [("min_tempo", VInt 90); ("tempo", VInt 120)] Scenario.world
    = (inl (ValueError "'tempo' is not a valid kwarg."), Scenario.world).
Proof.
  split.
  - apply (proj1 (X17_recommendations_need_seeds_and_valid_kwargs
                    (Scenario.env (λ _, Scenario.ok)) None (Some []) None
                    VNone VNone None [] Scenario.world)).
    reflexivity.
  - apply (proj2 (X17_recommendations_need_seeds_and_valid_kwargs
                    (Scenario.env (λ _, Scenario.ok)) None (Some ["jazz"])
                    None VNone VNone None
                    [("min_tempo", VInt 90); ("tempo", VInt 120)]
                    Scenario.world) "tempo").
    + unfold count_seeds. simpl. lia.
    + reflexivity.
Defined.

(** X18 for [get_album_tracks] with a limit of 51. *)
Lemma X18_refused_limit_stops_the_call_witness :
  ∃ e', call (Scenario.env (λ _, Scenario.ok)) ep_get_album_tracks
          (Scenario.args [] (VInt 51)) Scenario.world
        = (inl e', Scenario.world)
        ∧ (ep_get_album_tracks ≠ ep_get_recommendations ->
           e' = ValueError "'limit' is out of range.").
Proof.
  apply (X18_refused_limit_stops_the_call (Scenario.env (λ _, Scenario.ok))
           ep_get_album_tracks (Scenario.args [] (VInt 51)) 1 50);
    reflexivity.
Defined.

(** X19 for a volume of 101, and for a volume of 0. *)
Lemma X19_volume_always_checked_and_sent_witness :
  set_playback_volume (Scenario.env (λ _, Scenario.ok)) 101 VNone
    (Some 0%nat) Scenario.world
  = (inl (ValueError "'volume_percent' is out of range."), Scenario.world)
  ∧ ∃ parameters,
      parameters !! "volume_percent" = Some (VInt 0)
      ∧ events_all (carries (Some parameters))
          (set_playback_volume (Scenario.env (λ _, Scenario.ok)) 0 VNone
             (Some 0%nat)).
Proof.
  split.
  - apply (proj1 (X19_volume_always_checked_and_sent
                    (Scenario.env (λ _, Scenario.ok)) 101 VNone (Some 0%nat)
                    Scenario.world)).
    reflexivity.
  - apply (proj2 (X19_volume_always_checked_and_sent
                    (Scenario.env (λ _, Scenario.ok)) 0 VNone (Some 0%nat)
                    Scenario.world)).
    reflexivity.
Defined.

(** X23 for a limit of 1000. *)
Lemma X23_recent_tracks_limit_unchecked_witness :
  ∃ parameters,
    parameters !! "limit" = Some (VInt 1000)
    ∧ events_all (carries (Some parameters))
        (get_recently_played_tracks (Scenario.env (λ _, Scenario.ok))
           (VInt 1000) VNone VNone (Some 0%nat)).
Proof.
  apply (proj1 (X23_recent_tracks_limit_unchecked
                  (Scenario.env (λ _, Scenario.ok)) (VInt 1000) VNone VNone
                  (Some 0%nat) eq_refl eq_refl)).
Defined.

